(** * The in-memory user graph store of [main.go]

    The program keeps three package-level variables: the map [users] from
    user ID to [User], the lock [usersMutex] and the counter [nextUserID].
    Every HTTP handler decodes its request, takes the lock, and runs to
    completion before it releases it, so a handler is one atomic transition
    on the pair (map, counter).  The development below embeds each handler
    as a function from the store to the new store and the response, and
    proves the properties of the specification about these functions. *)

From stdpp Require Import gmap strings list fin_maps pretty.
From Stdlib Require Import ZArith Lia.

(** ** Go primitives used by the program *)

Module GoInt.

(** [int] is a signed machine word (64 bits on the usual targets);
    [nextUserID++] wraps around silently at the largest value. *)
Definition bits : Z := 64.
Definition maxInt : Z := 2 ^ (bits - 1) - 1.
Definition minInt : Z := - 2 ^ (bits - 1).
Definition wrap (z : Z) : Z :=
  ((z + 2 ^ (bits - 1)) `mod` 2 ^ bits - 2 ^ (bits - 1))%Z.
Definition inRange (z : Z) : Prop := (minInt ≤ z ≤ maxInt)%Z.

End GoInt.

(** [strconv.Itoa]: the decimal rendering of an [int], with a leading
    minus sign for negative numbers. *)
Definition Itoa (i : Z) : string := pretty i.

(** ** Data model *)

(** [Friends] is the sequence of entries of the Go slice.  A nil slice and
    an empty slice are both the empty list: the model speaks of the entries
    of a friend list, not of whether an empty one is encoded as [null] or
    as an empty JSON array. *)
Record User := mkUser {
  Name : string;
  Age : Z;
  Friends : list string
}.

(** The package-level state; the lock is not part of it, since each handler
    holds it from its first access to its return. *)
Record Store := mkStore {
  users : gmap string User;
  nextUserID : Z
}.

Definition initialStore : Store := mkStore ∅ 1.

(** What a handler writes to its [http.ResponseWriter]. *)
Inductive Body :=
| Text (s : string)
| UsersJSON (m : gmap string User)
| FriendsJSON (l : list User).

Record Response := mkResponse {
  status : Z;
  body : Body
}.

Definition StatusOK : Z := 200.
Definition StatusCreated : Z := 201.
Definition StatusBadRequest : Z := 400.
Definition StatusNotFound : Z := 404.
Definition StatusInternalServerError : Z := 500.

Definition LF : string := String (Ascii.ascii_of_nat 10) EmptyString.

(** [http.Error(w, msg, code)] sets the status and prints [msg] and a line
    feed. *)
Definition httpError (msg : string) (code : Z) : Response :=
  mkResponse code (Text (msg +:+ LF)).

(** ** The handlers *)

Definition generateUserID (s : Store) : string * Store :=
  let id := Itoa (nextUserID s) in
  (id, mkStore (users s) (GoInt.wrap (nextUserID s + 1))).

(** The request body is given as the outcome of [Decode]: [None] when the
    decoder returned an error. *)
Definition createUserHandler (decoded : option User) (s : Store)
  : Store * Response :=
  match decoded with
  | None => (s, httpError "Invalid request body" StatusBadRequest)
  | Some newUser =>
      let '(userID, s1) := generateUserID s in
      (mkStore (<[userID := newUser]> (users s1)) (nextUserID s1),
       mkResponse StatusCreated (Text ("User ID: " +:+ userID)))
  end.

(** [encodeErr] is the outcome of [json.NewEncoder(w).Encode]: [None] for a
    nil error, [Some msg] for an error whose text is [msg].  For the types
    encoded here it can only fail when writing to the connection fails. *)
Definition getAllUsersHandler (encodeErr : option string) (s : Store)
  : Store * Response :=
  if Nat.eqb (size (users s)) 0 then
    (s, httpError "Список пользователей пуст" StatusNotFound)
  else
    match encodeErr with
    | Some _ =>
        (s, httpError "Ошибка при формировании ответа" StatusInternalServerError)
    | None => (s, mkResponse StatusOK (UsersJSON (users s)))
    end.

Record Friendship := mkFriendship {
  SourceID : string;
  TargetID : string
}.

Definition setFriends (u : User) (fs : list string) : User :=
  mkUser (Name u) (Age u) fs.

Definition makeFriendsHandler (decoded : option Friendship) (s : Store)
  : Store * Response :=
  match decoded with
  | None => (s, httpError "Invalid request body" StatusBadRequest)
  | Some friendship =>
      match users s !! SourceID friendship, users s !! TargetID friendship with
      | Some sourceUser, Some targetUser =>
          let sourceUser' :=
            setFriends sourceUser (Friends sourceUser ++ [TargetID friendship]) in
          let targetUser' :=
            setFriends targetUser (Friends targetUser ++ [SourceID friendship]) in
          let m1 := <[SourceID friendship := sourceUser']> (users s) in
          let m2 := <[TargetID friendship := targetUser']> m1 in
          (mkStore m2 (nextUserID s),
           mkResponse StatusOK
             (Text (Name sourceUser' +:+ " и " +:+ Name targetUser'
                    +:+ " теперь друзья")))
      | _, _ => (s, httpError "One or both users not found" StatusBadRequest)
      end
  end.

(** The inner loop of [deleteUserHandler]: scan the list, cut out the first
    entry equal to [target] and stop. *)
Fixpoint removeFirst (target : string) (l : list string) : list string :=
  match l with
  | [] => []
  | id :: rest =>
      if decide (id = target) then rest else id :: removeFirst target rest
  end.

(** The body of the outer loop, for one entry of the deleted user's list. *)
Definition cascadeStep (target : string) (m : gmap string User)
  (friendID : string) : gmap string User :=
  match m !! friendID with
  | None => m
  | Some friend =>
      <[friendID := setFriends friend (removeFirst target (Friends friend))]> m
  end.

Definition cascade (target : string) (fs : list string)
  (m : gmap string User) : gmap string User :=
  fold_left (cascadeStep target) fs m.

Definition deleteUserHandler (decoded : option string) (s : Store)
  : Store * Response :=
  match decoded with
  | None => (s, httpError "Invalid request body" StatusBadRequest)
  | Some target =>
      match users s !! target with
      | None => (s, httpError "User not found" StatusBadRequest)
      | Some targetUser =>
          let m1 := delete target (users s) in
          let m2 := cascade target (Friends targetUser) m1 in
          (mkStore m2 (nextUserID s),
           mkResponse StatusOK (Text (Name targetUser +:+ " удалён")))
      end
  end.

(** The loop of [getUserFriendsHandler], appending to [friendsDetails]. *)
Definition friendsDetails (m : gmap string User) (fs : list string)
  : list User :=
  fold_left
    (fun acc friendID =>
       match m !! friendID with
       | Some friend => acc ++ [friend]
       | None => acc
       end)
    fs [].

Definition getUserFriendsHandler (userID : string) (encodeErr : option string)
  (s : Store) : Store * Response :=
  match users s !! userID with
  | None => (s, httpError "User not found" StatusBadRequest)
  | Some user =>
      let details := friendsDetails (users s) (Friends user) in
      match encodeErr with
      | Some msg => (s, httpError msg StatusInternalServerError)
      | None => (s, mkResponse StatusOK (FriendsJSON details))
      end
  end.

Definition updateUserAgeHandler (userID : string) (decoded : option Z)
  (s : Store) : Store * Response :=
  match decoded with
  | None => (s, httpError "Invalid request body" StatusBadRequest)
  | Some newAge =>
      match users s !! userID with
      | None => (s, httpError "User not found" StatusBadRequest)
      | Some user =>
          (mkStore (<[userID := mkUser (Name user) newAge (Friends user)]> (users s))
                   (nextUserID s),
           mkResponse StatusOK (Text "Возраст пользователя успешно обновлён"))
      end
  end.

(** ** The router: one request, and a sequence of requests *)

(** A request that reaches one of the six handlers registered in [main],
    with what the handler reads from it.  A request for a path or method
    that no handler is registered for is answered by the router library
    alone, runs no code of the program and is not represented. *)
Inductive Request :=
| ReqCreate (decoded : option User)
| ReqUsers (encodeErr : option string)
| ReqMakeFriends (decoded : option Friendship)
| ReqDeleteUser (decoded : option string)
| ReqFriends (userID : string) (encodeErr : option string)
| ReqUserAge (userID : string) (decoded : option Z).

Definition handle (r : Request) (s : Store) : Store * Response :=
  match r with
  | ReqCreate d => createUserHandler d s
  | ReqUsers e => getAllUsersHandler e s
  | ReqMakeFriends d => makeFriendsHandler d s
  | ReqDeleteUser d => deleteUserHandler d s
  | ReqFriends u e => getUserFriendsHandler u e s
  | ReqUserAge u d => updateUserAgeHandler u d s
  end.

(** Requests are served one after the other (the lock serialises them). *)
Fixpoint serve (rs : list Request) (s : Store) : Store * list Response :=
  match rs with
  | [] => (s, [])
  | r :: rs' =>
      let '(s1, resp) := handle r s in
      let '(s2, resps) := serve rs' s1 in
      (s2, resp :: resps)
  end.

(** ** Vocabulary of the specification *)

(** The friend list of [id], empty when [id] is not in the store. *)
Definition friendsOf (m : gmap string User) (id : string) : list string :=
  match m !! id with
  | Some u => Friends u
  | None => []
  end.

(** Number of entries of [l] equal to [x]. *)
Definition occ (x : string) (l : list string) : nat :=
  count_occ (λ a b : string, decide (a = b)) l x.

(** Bidirectional consistency: whoever is listed lists back. *)
Definition bidirectional (m : gmap string User) : Prop :=
  ∀ A B ua, m !! A = Some ua → B ∈ Friends ua →
    ∃ ub, m !! B = Some ub ∧ A ∈ Friends ub.

(** [Link(A, B)] of the specification is a [/make_friends] request whose
    body decoded to the two IDs. *)
Definition Link (A B : string) (s : Store) : Store * Response :=
  makeFriendsHandler (Some (mkFriendship A B)) s.

(** Friend lists that mirror each other entry for entry: [A] lists [B] as
    often as [B] lists [A], and nobody lists an ID that is not stored. *)
Definition mirrored (m : gmap string User) : Prop :=
  ∀ A B, occ B (friendsOf m A) = occ A (friendsOf m B).

(** The records of the IDs of [fs] that resolve in [m], in the order of
    [fs]; this is the result the specification gives for [GetFriends]. *)
Definition resolvedFriends (m : gmap string User) (fs : list string)
  : list User :=
  omap (λ id, m !! id) fs.

(** Reading the ID back from the body of a [201] response. *)
Fixpoint stripPrefix (p t : string) : option string :=
  match p, t with
  | EmptyString, _ => Some t
  | String a p', String b t' =>
      if decide (a = b) then stripPrefix p' t' else None
  | String _ _, EmptyString => None
  end.

Definition createdID (r : Response) : option string :=
  if decide (status r = StatusCreated) then
    match body r with
    | Text t => stripPrefix "User ID: " t
    | _ => None
    end
  else None.

(** The IDs handed out while serving [rs] from [s], in the order of the
    calls. *)
Definition createdIDs (rs : list Request) (s : Store) : list string :=
  omap createdID (serve rs s).2.

(** Number of [/create] requests whose body decoded. *)
Fixpoint creations (rs : list Request) : nat :=
  match rs with
  | [] => 0
  | ReqCreate (Some _) :: rs' => S (creations rs')
  | _ :: rs' => creations rs'
  end.

(** The IDs are the decimal encodings of a strictly increasing sequence of
    integers that starts at 1. *)
Definition increasingFromOne (ids : list string) : Prop :=
  ∃ zs : list Z,
    ids = Itoa <$> zs ∧
    (∀ z, zs !! 0 = Some z → z = 1%Z) ∧
    (∀ i j zi zj, i < j → zs !! i = Some zi → zs !! j = Some zj → (zi < zj)%Z).

(** [DeleteUser(X)] is a [/user] DELETE request whose body decoded to [X],
    and [CreateUser] a [/create] request whose body decoded to a record. *)
Definition DeleteUser (X : string) (s : Store) : Store * Response :=
  deleteUserHandler (Some X) s.

Definition CreateUser (newUser : User) (s : Store) : Store * Response :=
  createUserHandler (Some newUser) s.

(** The record of a friend after [n] scans for [target]. *)
Definition scanned (target : string) (n : nat) (f : User) : User :=
  setFriends f (Nat.iter n (removeFirst target) (Friends f)).

(** Every stored key is the encoding of a counter value already used. *)
Definition keysBelowCounter (s : Store) : Prop :=
  ∀ k, is_Some (users s !! k) →
    ∃ z : Z, k = Itoa z ∧ (1 ≤ z < nextUserID s)%Z.

(** Every [/create] request of [rs] carries an empty friend list. *)
Definition plainCreates (rs : list Request) : Prop :=
  ∀ u, ReqCreate (Some u) ∈ rs → Friends u = [].

(** What holds of the store as long as users are created without friends
    and the counter has not wrapped. *)
Definition consistent (s : Store) : Prop :=
  mirrored (users s) ∧ keysBelowCounter s ∧ (1 ≤ nextUserID s)%Z ∧
  GoInt.inRange (nextUserID s).

(** [UpdateAge(userID, newAge)] is a [/user_age/{user_id}] request whose
    body decoded to [newAge]. *)
Definition UpdateAge (userID : string) (newAge : Z) (s : Store)
  : Store * Response :=
  updateUserAgeHandler userID (Some newAge) s.

(** Every [/create] request of [rs] carries an empty friend list, as a
    test. *)
Fixpoint friendless (rs : list Request) : bool :=
  match rs with
  | [] => true
  | ReqCreate (Some u) :: rs' =>
      match Friends u with
      | [] => friendless rs'
      | _ :: _ => false
      end
  | _ :: rs' => friendless rs'
  end.

(** The keys are encodings of counter values already used, and the counter
    is positive and has not wrapped. *)
Definition counted (s : Store) : Prop :=
  keysBelowCounter s ∧ (1 ≤ nextUserID s)%Z ∧ GoInt.inRange (nextUserID s).

(** ** Sample data *)

Definition alice : User := mkUser "Alice" 30 [].
Definition bob : User := mkUser "Bob" 25 [].

(** A store with two users and no friendships, as two [/create] calls on
    the empty store leave it. *)
Definition twoUsers : Store :=
  (serve [ReqCreate (Some alice); ReqCreate (Some bob)] initialStore).1.

(** A store in which user "2" lists user "1" and user "1" lists nobody: the
    second [/create] call carried the friend list ["1"]. *)
Definition oneSided : Store :=
  (serve [ReqCreate (Some alice); ReqCreate (Some (mkUser "Bob" 25 ["1"]))]
     initialStore).1.

(** Users "1" and "2" created with friend lists ["2"] and ["3"; "1"; "1"],
    and a third user. *)
Definition repeatedEntries : Store :=
  (serve [ReqCreate (Some (mkUser "Alice" 30 ["2"]));
          ReqCreate (Some (mkUser "Bob" 25 ["3"; "1"; "1"]));
          ReqCreate (Some (mkUser "Carol" 41 []))]
     initialStore).1.

(** Two users are created, the second is deleted, a third is created. *)
Definition createDeleteCreate : list Request :=
  [ReqCreate (Some alice); ReqCreate (Some bob); ReqDeleteUser (Some "2");
   ReqCreate (Some (mkUser "Carol" 41 []))].

(** User "1" lists itself and the unknown ID "7"; user "2" lists nobody. *)
Definition selfListed : Store :=
  (serve [ReqCreate (Some (mkUser "Alice" 30 ["1"; "7"])); ReqCreate (Some bob)]
     initialStore).1.

(** * Properties *)

Example scenario_ids :
  (serve [ReqCreate (Some (mkUser "A" 30 [])); ReqCreate (Some (mkUser "B" 25 []))]
     initialStore).2
  = [mkResponse 201 (Text "User ID: 1"); mkResponse 201 (Text "User ID: 2")].
Proof. vm_compute. reflexivity. Qed.

(** ** Counting entries *)

Section Occurrences.

Implicit Types (x y : string) (l k : list string).

Lemma occ_nil x : occ x [] = 0.
Proof. reflexivity. Qed.

Lemma occ_cons_eq x l : occ x (x :: l) = S (occ x l).
Proof. unfold occ. now rewrite count_occ_cons_eq. Qed.

Lemma occ_cons_ne x y l : y ≠ x → occ x (y :: l) = occ x l.
Proof. intros Hne. unfold occ. now rewrite count_occ_cons_neq. Qed.

Lemma occ_app x l k : occ x (l ++ k) = occ x l + occ x k.
Proof. unfold occ. apply count_occ_app. Qed.

Lemma occ_zero x l : occ x l = 0 ↔ x ∉ l.
Proof.
  unfold occ. rewrite list_elem_of_In. symmetry. apply count_occ_not_In.
Qed.

Lemma occ_pos x l : 0 < occ x l ↔ x ∈ l.
Proof.
  unfold occ. rewrite list_elem_of_In. symmetry. apply count_occ_In.
Qed.

End Occurrences.

(** ** Link *)

Section LinkFacts.

Variables (s : Store) (A B : string).

Lemma Link_found ua ub :
  users s !! A = Some ua → users s !! B = Some ub →
  Link A B s =
    (mkStore (<[B := setFriends ub (Friends ub ++ [A])]>
                (<[A := setFriends ua (Friends ua ++ [B])]> (users s)))
             (nextUserID s),
     mkResponse StatusOK
       (Text (Name ua +:+ " и " +:+ Name ub +:+ " теперь друзья"))).
Proof.
  intros Ha Hb. unfold Link, makeFriendsHandler. simpl.
  rewrite Ha, Hb. reflexivity.
Qed.

Lemma Link_missing :
  users s !! A = None ∨ users s !! B = None →
  Link A B s = (s, httpError "One or both users not found" StatusBadRequest).
Proof.
  unfold Link, makeFriendsHandler. simpl.
  intros [H | H]; rewrite H; [reflexivity |].
  destruct (users s !! A); reflexivity.
Qed.

End LinkFacts.

Lemma friendsOf_Link_source s A B ua ub :
  users s !! A = Some ua → users s !! B = Some ub →
  friendsOf (users (Link A B s).1) A = friendsOf (users s) A ++ [B].
Proof.
  intros Ha Hb. rewrite (Link_found s A B ua ub Ha Hb). simpl.
  unfold friendsOf. rewrite Ha.
  destruct (decide (A = B)) as [-> | Hne].
  - rewrite lookup_insert_eq. simpl. congruence.
  - rewrite lookup_insert_ne, lookup_insert_eq by congruence. reflexivity.
Qed.

Lemma friendsOf_Link_target s A B ua ub :
  users s !! A = Some ua → users s !! B = Some ub →
  friendsOf (users (Link A B s).1) B = friendsOf (users s) B ++ [A].
Proof.
  intros Ha Hb. rewrite (Link_found s A B ua ub Ha Hb). simpl.
  unfold friendsOf. rewrite Hb, lookup_insert_eq. reflexivity.
Qed.

Lemma Link_keeps_users s A B k :
  is_Some (users (Link A B s).1 !! k) ↔ is_Some (users s !! k).
Proof.
  destruct (users s !! A) as [ua |] eqn:Ha, (users s !! B) as [ub |] eqn:Hb.
  - rewrite (Link_found s A B ua ub Ha Hb). simpl.
    rewrite !lookup_insert. repeat case_decide; subst; rewrite ?Ha, ?Hb;
      split; eauto.
  - rewrite Link_missing by auto. reflexivity.
  - rewrite Link_missing by auto. reflexivity.
  - rewrite Link_missing by auto. reflexivity.
Qed.

(** C1: for distinct stored users A and B, Link(A,B) succeeds, and afterwards
    B is in A's friend list and A is in B's friend list; more precisely B
    was appended to A's list and A to B's list. *)
Theorem C1_link_lists_both_ways (s : Store) (A B : string) :
  A ≠ B → is_Some (users s !! A) → is_Some (users s !! B) →
  status (Link A B s).2 = StatusOK ∧
  B ∈ friendsOf (users (Link A B s).1) A ∧
  A ∈ friendsOf (users (Link A B s).1) B ∧
  friendsOf (users (Link A B s).1) A = friendsOf (users s) A ++ [B] ∧
  friendsOf (users (Link A B s).1) B = friendsOf (users s) B ++ [A].
Proof.
  intros _ [ua Ha] [ub Hb].
  rewrite (friendsOf_Link_source s A B ua ub Ha Hb).
  rewrite (friendsOf_Link_target s A B ua ub Ha Hb).
  split; [now rewrite (Link_found s A B ua ub Ha Hb) |].
  rewrite !elem_of_app, !list_elem_of_singleton. auto.
Qed.

Lemma C1_link_lists_both_ways_witness :
  status (Link "1" "2" twoUsers).2 = StatusOK ∧
  "2" ∈ friendsOf (users (Link "1" "2" twoUsers).1) "1" ∧
  "1" ∈ friendsOf (users (Link "1" "2" twoUsers).1) "2" ∧
  friendsOf (users (Link "1" "2" twoUsers).1) "1"
    = friendsOf (users twoUsers) "1" ++ ["2"] ∧
  friendsOf (users (Link "1" "2" twoUsers).1) "2"
    = friendsOf (users twoUsers) "2" ++ ["1"].
Proof.
  apply (C1_link_lists_both_ways twoUsers "1" "2").
  - discriminate.
  - vm_compute. eauto.
  - vm_compute. eauto.
Defined.

(** C3: Link is not idempotent.  For stored users A and B (equal or not),
    two calls of Link(A,B) both succeed and leave A's friend list extended
    by two entries B and B's friend list extended by two entries A: each
    list counts two more occurrences than before, nothing is de-duplicated. *)
Theorem C3_link_twice_appends_twice (s : Store) (A B : string) :
  is_Some (users s !! A) → is_Some (users s !! B) →
  let s1 := (Link A B s).1 in
  let s2 := (Link A B s1).1 in
  status (Link A B s).2 = StatusOK ∧
  status (Link A B s1).2 = StatusOK ∧
  friendsOf (users s2) A = friendsOf (users s) A ++ [B; B] ∧
  friendsOf (users s2) B = friendsOf (users s) B ++ [A; A] ∧
  occ B (friendsOf (users s2) A) = 2 + occ B (friendsOf (users s) A) ∧
  occ A (friendsOf (users s2) B) = 2 + occ A (friendsOf (users s) B).
Proof.
  intros [ua Ha] [ub Hb] s1 s2.
  destruct (proj2 (Link_keeps_users s A B A) (mk_is_Some _ _ Ha)) as [ua1 Ha1].
  destruct (proj2 (Link_keeps_users s A B B) (mk_is_Some _ _ Hb)) as [ub1 Hb1].
  fold s1 in Ha1, Hb1.
  assert (HA : friendsOf (users s2) A = friendsOf (users s) A ++ [B; B]).
  { unfold s2. rewrite (friendsOf_Link_source s1 A B ua1 ub1 Ha1 Hb1).
    unfold s1. rewrite (friendsOf_Link_source s A B ua ub Ha Hb).
    now rewrite <- app_assoc. }
  assert (HB : friendsOf (users s2) B = friendsOf (users s) B ++ [A; A]).
  { unfold s2. rewrite (friendsOf_Link_target s1 A B ua1 ub1 Ha1 Hb1).
    unfold s1. rewrite (friendsOf_Link_target s A B ua ub Ha Hb).
    now rewrite <- app_assoc. }
  rewrite HA, HB, !occ_app, !occ_cons_eq, occ_nil.
  rewrite (Link_found s A B ua ub Ha Hb).
  rewrite (Link_found s1 A B ua1 ub1 Ha1 Hb1). simpl.
  repeat split; lia.
Qed.

Lemma C3_link_twice_appends_twice_witness :
  let s1 := (Link "1" "2" twoUsers).1 in
  let s2 := (Link "1" "2" s1).1 in
  status (Link "1" "2" twoUsers).2 = StatusOK ∧
  status (Link "1" "2" s1).2 = StatusOK ∧
  friendsOf (users s2) "1" = friendsOf (users twoUsers) "1" ++ ["2"; "2"] ∧
  friendsOf (users s2) "2" = friendsOf (users twoUsers) "2" ++ ["1"; "1"] ∧
  occ "2" (friendsOf (users s2) "1") = 2 + occ "2" (friendsOf (users twoUsers) "1") ∧
  occ "1" (friendsOf (users s2) "2") = 2 + occ "1" (friendsOf (users twoUsers) "2").
Proof.
  apply (C3_link_twice_appends_twice twoUsers "1" "2").
  - vm_compute. eauto.
  - vm_compute. eauto.
Defined.

(** C4: with a decoded body, Link answers 400 "One or both users not found"
    exactly when the source ID or the target ID is not stored; otherwise it
    answers 200.  When it fails, the store (map and counter) is the one it
    started from. *)
Theorem C4_link_fails_iff_unknown (s : Store) (A B : string) :
  ((Link A B s).2 = httpError "One or both users not found" StatusBadRequest
   ↔ users s !! A = None ∨ users s !! B = None) ∧
  (status (Link A B s).2 = StatusBadRequest
   ↔ users s !! A = None ∨ users s !! B = None) ∧
  (status (Link A B s).2 = StatusOK
   ↔ is_Some (users s !! A) ∧ is_Some (users s !! B)) ∧
  (status (Link A B s).2 ≠ StatusOK → (Link A B s).1 = s).
Proof.
  destruct (users s !! A) as [ua |] eqn:Ha, (users s !! B) as [ub |] eqn:Hb;
    [ rewrite (Link_found s A B ua ub Ha Hb)
    | rewrite (Link_missing s A B) by auto ..]; simpl;
    unfold StatusOK, StatusBadRequest, httpError;
    repeat split; try discriminate; try (intros [? | ?]; discriminate);
    try (intros [[? ?] [? ?]]; discriminate); try congruence; eauto.
Qed.

(** C10: for a stored user A, Link(A,A) succeeds and A's record is rewritten
    with exactly one more entry A at the end of its friend list; the rest
    of the store is as before. *)
Theorem C10_self_link_appends_once (s : Store) (A : string) (u : User) :
  users s !! A = Some u →
  status (Link A A s).2 = StatusOK ∧
  users (Link A A s).1 = <[A := setFriends u (Friends u ++ [A])]> (users s) ∧
  friendsOf (users (Link A A s).1) A = friendsOf (users s) A ++ [A] ∧
  occ A (friendsOf (users (Link A A s).1) A) = S (occ A (friendsOf (users s) A)).
Proof.
  intros Ha.
  rewrite (friendsOf_Link_source s A A u u Ha Ha).
  rewrite (Link_found s A A u u Ha Ha). simpl.
  rewrite insert_insert_eq, occ_app, occ_cons_eq, occ_nil.
  repeat split; lia.
Qed.

Lemma C10_self_link_appends_once_witness :
  status (Link "1" "1" twoUsers).2 = StatusOK ∧
  users (Link "1" "1" twoUsers).1
    = <["1" := setFriends alice (Friends alice ++ ["1"])]> (users twoUsers) ∧
  friendsOf (users (Link "1" "1" twoUsers).1) "1"
    = friendsOf (users twoUsers) "1" ++ ["1"] ∧
  occ "1" (friendsOf (users (Link "1" "1" twoUsers).1) "1")
    = S (occ "1" (friendsOf (users twoUsers) "1")).
Proof.
  apply (C10_self_link_appends_once twoUsers "1" alice).
  vm_compute. reflexivity.
Defined.

(** ** The delete cascade *)

Section RemoveFirst.

Variable target : string.
Implicit Types (l : list string) (n : nat).

Lemma removeFirst_first l1 l2 :
  target ∉ l1 → removeFirst target (l1 ++ target :: l2) = l1 ++ l2.
Proof.
  induction l1 as [| x l1 IH]; simpl; intros Hnot.
  - now rewrite decide_True.
  - apply not_elem_of_cons in Hnot as [Hne Hnot].
    rewrite decide_False by congruence. now rewrite IH.
Qed.

Lemma removeFirst_absent l : target ∉ l → removeFirst target l = l.
Proof.
  induction l as [| x l IH]; simpl; intros Hnot; [reflexivity |].
  apply not_elem_of_cons in Hnot as [Hne Hnot].
  rewrite decide_False by congruence. now rewrite IH.
Qed.

Lemma occ_removeFirst l :
  occ target (removeFirst target l) = pred (occ target l).
Proof.
  induction l as [| x l IH]; cbn [removeFirst]; [reflexivity |].
  destruct (decide (x = target)) as [-> | Hne].
  - now rewrite occ_cons_eq.
  - rewrite !occ_cons_ne by assumption. exact IH.
Qed.

Lemma occ_removeFirst_other x l :
  x ≠ target → occ x (removeFirst target l) = occ x l.
Proof.
  intros Hx. induction l as [| y l IH]; cbn [removeFirst]; [reflexivity |].
  destruct (decide (y = target)) as [-> | Hne].
  - now rewrite occ_cons_ne by congruence.
  - destruct (decide (y = x)) as [-> | Hyx].
    + now rewrite !occ_cons_eq, IH.
    + now rewrite !occ_cons_ne by assumption.
Qed.

Lemma occ_iter_removeFirst n l :
  occ target (Nat.iter n (removeFirst target) l) = occ target l - n.
Proof.
  induction n as [| n IH]; simpl; [lia |].
  rewrite occ_removeFirst, IH. lia.
Qed.

Lemma occ_iter_removeFirst_other x n l :
  x ≠ target → occ x (Nat.iter n (removeFirst target) l) = occ x l.
Proof.
  intros Hx. induction n as [| n IH]; simpl; [reflexivity |].
  now rewrite occ_removeFirst_other.
Qed.

Lemma iter_removeFirst_shift n l :
  Nat.iter n (removeFirst target) (removeFirst target l)
  = Nat.iter (S n) (removeFirst target) l.
Proof.
  induction n as [| n IH]; simpl; [reflexivity |]. now rewrite IH.
Qed.

End RemoveFirst.

Section Cascade.

Variable target : string.
Implicit Types (m : gmap string User) (fs : list string).

Lemma cascadeStep_lookup m F k :
  cascadeStep target m F !! k
  = if decide (k = F) then scanned target 1 <$> m !! k else m !! k.
Proof.
  unfold cascadeStep. case_decide as Hk.
  - subst k. destruct (m !! F) as [f |] eqn:Hf.
    + now rewrite lookup_insert_eq.
    + now rewrite Hf.
  - destruct (m !! F); [now rewrite lookup_insert_ne by congruence | reflexivity].
Qed.

(** A friend is scanned once for every entry of the list that names it. *)
Lemma cascade_lookup fs m k :
  cascade target fs m !! k = scanned target (occ k fs) <$> m !! k.
Proof.
  revert m. induction fs as [| F fs IH]; intros m.
  - simpl. destruct (m !! k) as [[n a l] |]; reflexivity.
  - change (cascade target (F :: fs) m)
      with (cascade target fs (cascadeStep target m F)).
    rewrite IH, cascadeStep_lookup. case_decide as Hk.
    + subst F. rewrite occ_cons_eq. destruct (m !! k) as [f |]; simpl; [| reflexivity].
      unfold scanned, setFriends. simpl. f_equal. f_equal.
      apply (iter_removeFirst_shift target (occ k fs)).
    + now rewrite occ_cons_ne by congruence.
Qed.

End Cascade.

Lemma DeleteUser_found s X u :
  users s !! X = Some u →
  DeleteUser X s =
    (mkStore (cascade X (Friends u) (delete X (users s))) (nextUserID s),
     mkResponse StatusOK (Text (Name u +:+ " удалён"))).
Proof. intros Hx. unfold DeleteUser, deleteUserHandler. now rewrite Hx. Qed.

Lemma DeleteUser_missing s X :
  users s !! X = None →
  DeleteUser X s = (s, httpError "User not found" StatusBadRequest).
Proof. intros Hx. unfold DeleteUser, deleteUserHandler. now rewrite Hx. Qed.

Lemma DeleteUser_lookup s X u k :
  users s !! X = Some u →
  users (DeleteUser X s).1 !! k
  = if decide (k = X) then None
    else scanned X (occ k (Friends u)) <$> users s !! k.
Proof.
  intros Hx. rewrite (DeleteUser_found s X u Hx). simpl.
  rewrite cascade_lookup. case_decide as Hk.
  - subst k. now rewrite lookup_delete_eq.
  - now rewrite lookup_delete_ne by congruence.
Qed.

Lemma friendsOf_DeleteUser s X u k :
  users s !! X = Some u → k ≠ X →
  friendsOf (users (DeleteUser X s).1) k
  = Nat.iter (occ k (Friends u)) (removeFirst X) (friendsOf (users s) k).
Proof.
  intros Hx Hk. unfold friendsOf. rewrite (DeleteUser_lookup s X u k Hx).
  rewrite decide_False by assumption.
  destruct (users s !! k) as [f |]; simpl; [reflexivity |].
  induction (occ k (Friends u)) as [| n IH]; simpl; [reflexivity |].
  now rewrite <- IH.
Qed.

(** ** Mirrored friend lists *)

Lemma friendsOf_Link s A B ua ub k :
  users s !! A = Some ua → users s !! B = Some ub →
  friendsOf (users (Link A B s).1) k
  = if decide (k = B) then friendsOf (users s) B ++ [A]
    else if decide (k = A) then friendsOf (users s) A ++ [B]
    else friendsOf (users s) k.
Proof.
  intros Ha Hb. rewrite (Link_found s A B ua ub Ha Hb). simpl.
  unfold friendsOf. rewrite !lookup_insert, Ha, Hb.
  destruct (decide (k = B)) as [-> | HkB].
  - now rewrite decide_True.
  - rewrite decide_False by congruence.
    destruct (decide (k = A)) as [-> | HkA].
    + now rewrite decide_True.
    + now rewrite decide_False by congruence.
Qed.

Lemma mirrored_Link s A B :
  mirrored (users s) → mirrored (users (Link A B s).1).
Proof.
  intros Hm.
  destruct (users s !! A) as [ua |] eqn:Ha; [| now rewrite Link_missing by auto].
  destruct (users s !! B) as [ub |] eqn:Hb; [| now rewrite Link_missing by auto].
  intros P Q.
  rewrite (friendsOf_Link s A B ua ub P Ha Hb).
  rewrite (friendsOf_Link s A B ua ub Q Ha Hb).
  pose proof (Hm P Q). pose proof (Hm A B). pose proof (Hm A Q).
  pose proof (Hm B Q). pose proof (Hm P A). pose proof (Hm P B).
  repeat case_decide; subst; rewrite ?occ_app;
    repeat match goal with
    | |- context [occ ?x [?y]] =>
        first [ rewrite (occ_cons_eq x [])
              | rewrite (occ_cons_ne x y []) by congruence ]
    end; rewrite ?occ_nil; try lia; congruence.
Qed.

Lemma mirrored_DeleteUser_absent s X u F :
  users s !! X = Some u → mirrored (users s) →
  X ∉ friendsOf (users (DeleteUser X s).1) F.
Proof.
  intros Hx Hm. destruct (decide (F = X)) as [-> | HF].
  - unfold friendsOf. rewrite (DeleteUser_lookup s X u X Hx), decide_True by done.
    apply not_elem_of_nil.
  - apply occ_zero. rewrite (friendsOf_DeleteUser s X u F Hx HF).
    rewrite occ_iter_removeFirst, (Hm F X).
    unfold friendsOf at 1. rewrite Hx. lia.
Qed.

Lemma mirrored_DeleteUser s X :
  mirrored (users s) → mirrored (users (DeleteUser X s).1).
Proof.
  intros Hm.
  destruct (users s !! X) as [u |] eqn:Hx; [| now rewrite DeleteUser_missing].
  assert (Hgone : friendsOf (users (DeleteUser X s).1) X = []).
  { unfold friendsOf.
    now rewrite (DeleteUser_lookup s X u X Hx), decide_True by done. }
  assert (Hzero : ∀ F, occ X (friendsOf (users (DeleteUser X s).1) F) = 0).
  { intros F. apply occ_zero. now apply (mirrored_DeleteUser_absent s X u). }
  intros P Q.
  destruct (decide (P = X)) as [-> | HP].
  { now rewrite Hgone, Hzero. }
  destruct (decide (Q = X)) as [-> | HQ].
  { now rewrite Hgone, Hzero. }
  rewrite (friendsOf_DeleteUser s X u P Hx HP).
  rewrite (friendsOf_DeleteUser s X u Q Hx HQ).
  rewrite !occ_iter_removeFirst_other by assumption. apply Hm.
Qed.

(** C2 (amended): for a stored user X, DeleteUser(X) succeeds and X is no
    longer a key of the map.  A remaining user F that listed X no longer
    lists it exactly when F listed X at most as often as X listed F; so X is
    gone from every friend list when the lists mirror each other, as they do
    after Link calls on users created without friends. *)
Theorem C2_delete_removes_user_and_mirrored_entries
  (s : Store) (X : string) (u : User) :
  users s !! X = Some u →
  status (DeleteUser X s).2 = StatusOK ∧
  users (DeleteUser X s).1 !! X = None ∧
  (∀ F, F ≠ X →
     (is_Some (users (DeleteUser X s).1 !! F) ↔ is_Some (users s !! F)) ∧
     (X ∉ friendsOf (users (DeleteUser X s).1) F
      ↔ occ X (friendsOf (users s) F) ≤ occ F (Friends u))) ∧
  (mirrored (users s) → ∀ F, X ∉ friendsOf (users (DeleteUser X s).1) F).
Proof.
  intros Hx. split; [now rewrite (DeleteUser_found s X u Hx) |].
  split; [now rewrite (DeleteUser_lookup s X u X Hx), decide_True |].
  split.
  - intros F HF. split.
    + rewrite (DeleteUser_lookup s X u F Hx), decide_False by assumption.
      now rewrite fmap_is_Some.
    + rewrite <- occ_zero, (friendsOf_DeleteUser s X u F Hx HF).
      rewrite occ_iter_removeFirst. lia.
  - intros Hm F. now apply (mirrored_DeleteUser_absent s X u).
Qed.

Lemma C2_delete_removes_user_and_mirrored_entries_witness :
  let s := (Link "1" "2" twoUsers).1 in
  status (DeleteUser "2" s).2 = StatusOK ∧
  users (DeleteUser "2" s).1 !! "2" = None ∧
  (∀ F, F ≠ "2" →
     (is_Some (users (DeleteUser "2" s).1 !! F) ↔ is_Some (users s !! F)) ∧
     ("2" ∉ friendsOf (users (DeleteUser "2" s).1) F
      ↔ occ "2" (friendsOf (users s) F) ≤ occ F (Friends (setFriends bob ["1"])))) ∧
  (mirrored (users s) → ∀ F, "2" ∉ friendsOf (users (DeleteUser "2" s).1) F).
Proof.
  apply (C2_delete_removes_user_and_mirrored_entries
           (Link "1" "2" twoUsers).1 "2" (setFriends bob ["1"])).
  vm_compute. reflexivity.
Defined.

(** C2, as stated, fails: user "2" is created with the friend list ["1"],
    user "1" does not list "2", and after DeleteUser("1") succeeds user "2"
    still lists "1". *)
Lemma C2_one_sided_entry_survives_counterexample :
  is_Some (users oneSided !! "1") ∧
  status (DeleteUser "1" oneSided).2 = StatusOK ∧
  "1" ∈ friendsOf (users oneSided) "2" ∧
  ¬ ("1" ∉ friendsOf (users (DeleteUser "1" oneSided).1) "2").
Proof.
  split; [vm_compute; eauto |].
  split; [vm_compute; reflexivity |].
  split; [vm_compute; apply list_elem_of_here |].
  intros Hnot. apply Hnot. vm_compute. apply list_elem_of_here.
Qed.

(** C8: the cascade of DeleteUser(X) runs one scan per entry of X's friend
    list.  A scan of friend F cuts the first entry X out of F's list and
    keeps every later entry, further entries X included.  Hence a stored
    friend F listed n times by X loses its first n entries X (as far as it
    has them) and no more; listed once, it loses the first one only. *)
Theorem C8_cascade_cuts_first_occurrence_per_scan
  (s : Store) (X F : string) (u f : User) :
  users s !! X = Some u → F ≠ X → users s !! F = Some f →
  (∀ (m : gmap string User) (g : User) (l1 l2 : list string),
     m !! F = Some g → Friends g = l1 ++ X :: l2 → X ∉ l1 →
     cascadeStep X m F = <[F := setFriends g (l1 ++ l2)]> m) ∧
  users (DeleteUser X s).1
    = fold_left (cascadeStep X) (Friends u) (delete X (users s)) ∧
  users (DeleteUser X s).1 !! F
    = Some (setFriends f
              (Nat.iter (occ F (Friends u)) (removeFirst X) (Friends f))) ∧
  occ X (friendsOf (users (DeleteUser X s).1) F)
    = occ X (Friends f) - occ F (Friends u) ∧
  (∀ l1 l2, occ F (Friends u) = 1 → Friends f = l1 ++ X :: l2 → X ∉ l1 →
     friendsOf (users (DeleteUser X s).1) F = l1 ++ l2 ∧
     occ X (friendsOf (users (DeleteUser X s).1) F) = occ X l2).
Proof.
  intros Hx HF Hf.
  assert (Hlist : friendsOf (users (DeleteUser X s).1) F
                  = Nat.iter (occ F (Friends u)) (removeFirst X) (Friends f)).
  { rewrite (friendsOf_DeleteUser s X u F Hx HF). unfold friendsOf.
    now rewrite Hf. }
  split.
  { intros m g l1 l2 Hg Hl Hnot. unfold cascadeStep.
    now rewrite Hg, Hl, removeFirst_first. }
  split; [now rewrite (DeleteUser_found s X u Hx) |].
  split.
  { rewrite (DeleteUser_lookup s X u F Hx), decide_False by assumption.
    now rewrite Hf. }
  split; [now rewrite Hlist, occ_iter_removeFirst |].
  intros l1 l2 Hone Hl Hnot. rewrite Hlist, Hone, Hl. simpl.
  rewrite removeFirst_first by assumption. split; [reflexivity |].
  rewrite occ_app. apply occ_zero in Hnot. lia.
Qed.

Lemma C8_cascade_cuts_first_occurrence_per_scan_witness :
  let s := repeatedEntries in
  let X := "1" in let F := "2" in
  let u := mkUser "Alice" 30 ["2"] in
  let f := mkUser "Bob" 25 ["3"; "1"; "1"] in
  (∀ (m : gmap string User) (g : User) (l1 l2 : list string),
     m !! F = Some g → Friends g = l1 ++ X :: l2 → X ∉ l1 →
     cascadeStep X m F = <[F := setFriends g (l1 ++ l2)]> m) ∧
  users (DeleteUser X s).1
    = fold_left (cascadeStep X) (Friends u) (delete X (users s)) ∧
  users (DeleteUser X s).1 !! F
    = Some (setFriends f
              (Nat.iter (occ F (Friends u)) (removeFirst X) (Friends f))) ∧
  occ X (friendsOf (users (DeleteUser X s).1) F)
    = occ X (Friends f) - occ F (Friends u) ∧
  (∀ l1 l2, occ F (Friends u) = 1 → Friends f = l1 ++ X :: l2 → X ∉ l1 →
     friendsOf (users (DeleteUser X s).1) F = l1 ++ l2 ∧
     occ X (friendsOf (users (DeleteUser X s).1) F) = occ X l2).
Proof.
  apply (C8_cascade_cuts_first_occurrence_per_scan repeatedEntries "1" "2"
           (mkUser "Alice" 30 ["2"]) (mkUser "Bob" 25 ["3"; "1"; "1"])).
  - vm_compute. reflexivity.
  - discriminate.
  - vm_compute. reflexivity.
Defined.

(** The scenario of the witness, evaluated: Bob's list ["3"; "1"; "1"]
    becomes ["3"; "1"] when user "1", who lists Bob once, is deleted. *)
Example cascade_keeps_second_entry :
  friendsOf (users (DeleteUser "1" repeatedEntries).1) "2" = ["3"; "1"].
Proof. vm_compute. reflexivity. Qed.

(** After two Link("1","2") calls each side lists the other twice, the
    cascade scans user "2" twice, and both entries go. *)
Example cascade_after_double_link :
  let s := (Link "1" "2" (Link "1" "2" twoUsers).1).1 in
  friendsOf (users s) "2" = ["1"; "1"] ∧
  friendsOf (users (DeleteUser "1" s).1) "2" = [].
Proof. vm_compute. split; reflexivity. Qed.

(** ** Read-only handlers *)

Lemma size_zero_empty (m : gmap string User) : size m = 0 ↔ m = ∅.
Proof. apply map_size_empty_iff. Qed.

(** C6: ListUsers answers 404 exactly when the map is empty; a 200 answer
    never carries an empty map; on a non-empty map the answer is 200 with
    the whole map, unless writing the response failed (then 500).  The store
    is not changed. *)
Theorem C6_list_users_empty_is_not_found
  (encodeErr : option string) (s : Store) :
  (getAllUsersHandler encodeErr s).1 = s ∧
  (status (getAllUsersHandler encodeErr s).2 = StatusNotFound ↔ users s = ∅) ∧
  (status (getAllUsersHandler encodeErr s).2 = StatusOK →
     users s ≠ ∅ ∧
     body (getAllUsersHandler encodeErr s).2 = UsersJSON (users s)) ∧
  (users s ≠ ∅ → encodeErr = None →
     (getAllUsersHandler encodeErr s).2
     = mkResponse StatusOK (UsersJSON (users s))).
Proof.
  unfold getAllUsersHandler.
  destruct (Nat.eqb_spec (size (users s)) 0) as [Hz | Hnz].
  - apply size_zero_empty in Hz. simpl. unfold StatusNotFound, StatusOK.
    repeat split; try done.
  - rewrite size_zero_empty in Hnz.
    destruct encodeErr as [msg |]; simpl;
      unfold StatusNotFound, StatusOK, StatusInternalServerError;
      repeat split; try done.
Qed.

Lemma friendsDetails_loop (m : gmap string User) (fs : list string)
  (acc : list User) :
  fold_left
    (fun acc friendID =>
       match m !! friendID with
       | Some friend => acc ++ [friend]
       | None => acc
       end)
    fs acc
  = acc ++ resolvedFriends m fs.
Proof.
  revert acc. induction fs as [| F fs IH]; intros acc; simpl.
  - now rewrite app_nil_r.
  - rewrite IH. destruct (m !! F) as [f |]; [| reflexivity].
    now rewrite <- app_assoc.
Qed.

Lemma friendsDetails_resolved (m : gmap string User) (fs : list string) :
  friendsDetails m fs = resolvedFriends m fs.
Proof. unfold friendsDetails. now rewrite friendsDetails_loop. Qed.

(** C7: GetFriends answers 400 exactly when the user ID is not stored.  For
    a stored user, whatever its friend list holds, the answer is 200 with
    the records of the listed IDs that are stored, in list order, the others
    left out, unless writing the response failed (then 500).  The store is
    not changed. *)
Theorem C7_get_friends_skips_unresolved
  (userID : string) (encodeErr : option string) (s : Store) :
  (getUserFriendsHandler userID encodeErr s).1 = s ∧
  (status (getUserFriendsHandler userID encodeErr s).2 = StatusBadRequest
   ↔ users s !! userID = None) ∧
  (∀ u, users s !! userID = Some u → encodeErr = None →
     (getUserFriendsHandler userID encodeErr s).2
     = mkResponse StatusOK (FriendsJSON (resolvedFriends (users s) (Friends u)))) ∧
  (status (getUserFriendsHandler userID encodeErr s).2 = StatusOK →
     ∃ u, users s !! userID = Some u ∧
          body (getUserFriendsHandler userID encodeErr s).2
          = FriendsJSON (resolvedFriends (users s) (Friends u))).
Proof.
  unfold getUserFriendsHandler.
  destruct (users s !! userID) as [u |] eqn:Hu.
  - rewrite friendsDetails_resolved.
    destruct encodeErr as [msg |]; simpl;
      unfold StatusBadRequest, StatusOK, StatusInternalServerError;
      repeat split; try done.
    + intros u' [= <-] _. reflexivity.
    + intros _. eauto.
  - simpl. unfold StatusBadRequest, StatusOK. repeat split; try done.
Qed.

(** A stale entry is skipped: user "2" lists "3", "1", "1"; only "3" and
    "1" are stored, and after "3" is deleted behind its back (user "3" does
    not list "2") the entry "3" no longer resolves. *)
Example get_friends_stale_entry :
  let s := (DeleteUser "3" repeatedEntries).1 in
  friendsOf (users s) "2" = ["3"; "1"; "1"] ∧
  (getUserFriendsHandler "2" None s).2
  = mkResponse StatusOK
      (FriendsJSON [mkUser "Alice" 30 ["2"]; mkUser "Alice" 30 ["2"]]).
Proof. vm_compute. split; reflexivity. Qed.

(** ** Create *)

Lemma CreateUser_eq (newUser : User) (s : Store) :
  CreateUser newUser s =
    (mkStore (<[Itoa (nextUserID s) := newUser]> (users s))
             (GoInt.wrap (nextUserID s + 1)),
     mkResponse StatusCreated (Text ("User ID: " +:+ Itoa (nextUserID s)))).
Proof. reflexivity. Qed.

(** C9: CreateUser always succeeds and stores the decoded record as it is,
    friend list included, under the new ID; it looks up none of the listed
    IDs and changes no other record.  So a friend list that is not empty
    can break bidirectional consistency: creating a user who lists "1" in a
    consistent store leaves "2" listing "1" while "1" does not list "2". *)
Theorem C9_create_stores_friends_verbatim :
  (∀ (newUser : User) (s : Store),
     status (CreateUser newUser s).2 = StatusCreated ∧
     createdID (CreateUser newUser s).2 = Some (Itoa (nextUserID s)) ∧
     users (CreateUser newUser s).1 !! Itoa (nextUserID s) = Some newUser ∧
     (∀ k, k ≠ Itoa (nextUserID s) →
        users (CreateUser newUser s).1 !! k = users s !! k)) ∧
  (∃ (newUser : User) (s : Store),
     Friends newUser ≠ [] ∧
     bidirectional (users s) ∧
     status (CreateUser newUser s).2 = StatusCreated ∧
     ¬ bidirectional (users (CreateUser newUser s).1)).
Proof.
  split.
  - intros newUser s. rewrite CreateUser_eq. simpl.
    split; [reflexivity |]. split.
    { unfold createdID. simpl. reflexivity. }
    split; [apply lookup_insert_eq |].
    intros k Hk. now rewrite lookup_insert_ne by congruence.
  - exists (mkUser "Bob" 25 ["1"]), (CreateUser alice initialStore).1.
    split; [discriminate |]. split.
    { intros A B ua Hua HB. rewrite CreateUser_eq in Hua. simpl in Hua.
      apply lookup_insert_Some in Hua as [[_ <-] | [_ Hua]].
      - inversion HB.
      - rewrite lookup_empty in Hua. discriminate. }
    split; [reflexivity |].
    intros Hbi.
    destruct (Hbi "2" "1" (mkUser "Bob" 25 ["1"])) as (ub & Hub & Hin).
    + vm_compute. reflexivity.
    + apply list_elem_of_here.
    + vm_compute in Hub. injection Hub as <-. simpl in Hin. inversion Hin.
Qed.

(** ** The ID counter *)

Section Counter.

Local Open Scope Z_scope.

Lemma wrap_unfold z :
  GoInt.wrap z
  = (z + 9223372036854775808) `mod` 18446744073709551616
    - 9223372036854775808.
Proof. reflexivity. Qed.

Lemma inRange_unfold z :
  GoInt.inRange z ↔ -9223372036854775808 ≤ z ≤ 9223372036854775807.
Proof. reflexivity. Qed.

Lemma wrap_inRange z : GoInt.inRange z → GoInt.wrap z = z.
Proof.
  rewrite inRange_unfold, wrap_unfold. intros Hz.
  rewrite Z.mod_small; lia.
Qed.

Lemma inRange_wrap z : GoInt.inRange (GoInt.wrap z).
Proof.
  rewrite inRange_unfold, wrap_unfold.
  pose proof (Z.mod_pos_bound (z + 9223372036854775808)
                18446744073709551616 eq_refl).
  lia.
Qed.

Lemma wrap_add_wrap a b : GoInt.wrap (GoInt.wrap a + b) = GoInt.wrap (a + b).
Proof.
  rewrite !wrap_unfold. f_equal.
  replace ((a + 9223372036854775808) `mod` 18446744073709551616
           - 9223372036854775808 + b + 9223372036854775808)
    with ((a + 9223372036854775808) `mod` 18446744073709551616 + b) by lia.
  rewrite Z.add_mod_idemp_l by lia. f_equal. lia.
Qed.

End Counter.

#[local] Instance Itoa_inj : Inj (=) (=) Itoa.
Proof. unfold Itoa. apply _. Qed.

Lemma createdID_CreateUser (newUser : User) (s : Store) :
  createdID (CreateUser newUser s).2 = Some (Itoa (nextUserID s)).
Proof. rewrite CreateUser_eq. unfold createdID. simpl. reflexivity. Qed.

(** Only a [/create] request whose body decoded answers 201 and moves the
    counter. *)
Lemma handle_no_creation (r : Request) (s : Store) :
  (∀ u, r ≠ ReqCreate (Some u)) →
  createdID (handle r s).2 = None ∧ nextUserID (handle r s).1 = nextUserID s.
Proof.
  intros Hr. destruct r as [[u |] | e | [fr |] | [X |] | id e | id [age |]]; simpl.
  - now destruct (Hr u).
  - done.
  - unfold getAllUsersHandler.
    destruct (size (users s) =? 0)%nat; [done |]. now destruct e.
  - unfold makeFriendsHandler.
    destruct (users s !! SourceID fr); [| done].
    now destruct (users s !! TargetID fr).
  - done.
  - unfold deleteUserHandler. now destruct (users s !! X).
  - done.
  - unfold getUserFriendsHandler.
    destruct (users s !! id); [| done]. now destruct e.
  - unfold updateUserAgeHandler. now destruct (users s !! id).
  - done.
Qed.

Lemma creation_cases (r : Request) :
  (∃ u, r = ReqCreate (Some u)) ∨ ∀ u, r ≠ ReqCreate (Some u).
Proof. destruct r as [[u |] | | | | |]; eauto; right; discriminate. Qed.

Lemma creations_cons_other (r : Request) (rs : list Request) :
  (∀ u, r ≠ ReqCreate (Some u)) → creations (r :: rs) = creations rs.
Proof.
  intros Hr. destruct r as [[u |] | | | | |]; try reflexivity.
  now destruct (Hr u).
Qed.

Lemma serve_cons (r : Request) (rs : list Request) (s : Store) :
  serve (r :: rs) s
  = ((serve rs (handle r s).1).1, (handle r s).2 :: (serve rs (handle r s).1).2).
Proof.
  simpl. destruct (handle r s) as [s1 resp]. simpl.
  now destruct (serve rs s1).
Qed.

Lemma createdIDs_cons_create (u : User) (rs : list Request) (s : Store) :
  createdIDs (ReqCreate (Some u) :: rs) s
  = Itoa (nextUserID s) :: createdIDs rs (CreateUser u s).1.
Proof.
  unfold createdIDs. rewrite serve_cons.
  change (handle (ReqCreate (Some u)) s) with (CreateUser u s).
  cbn [snd omap list_omap]. now rewrite createdID_CreateUser.
Qed.

Lemma createdIDs_cons_other (r : Request) (rs : list Request) (s : Store) :
  (∀ u, r ≠ ReqCreate (Some u)) →
  createdIDs (r :: rs) s = createdIDs rs (handle r s).1.
Proof.
  intros Hr. unfold createdIDs. rewrite serve_cons.
  cbn [snd omap list_omap].
  now rewrite (proj1 (handle_no_creation r s Hr)).
Qed.

(** The k-th ID handed out (counting from 0) is the counter advanced k
    times, each time with wrap-around. *)
Lemma createdIDs_counter (rs : list Request) (s : Store) :
  GoInt.inRange (nextUserID s) →
  createdIDs rs s
  = (λ k : nat, Itoa (GoInt.wrap (nextUserID s + Z.of_nat k)))
      <$> seq 0 (creations rs).
Proof.
  revert s. induction rs as [| r rs IH]; intros s Hs; [reflexivity |].
  destruct (creation_cases r) as [[u ->] | Hr'].
  - rewrite createdIDs_cons_create, IH by apply inRange_wrap.
    cbn [creations seq fmap list_fmap]. f_equal.
    + now rewrite Z.add_0_r, wrap_inRange.
    + rewrite <- fmap_S_seq, <- list_fmap_compose.
      apply list_fmap_ext. intros _ k _. simpl.
      rewrite wrap_add_wrap. do 2 f_equal. lia.
  - rewrite createdIDs_cons_other by assumption.
    rewrite IH by (rewrite (proj2 (handle_no_creation r s Hr')); assumption).
    now rewrite (proj2 (handle_no_creation r s Hr')), creations_cons_other.
Qed.

Lemma creations_replicate (n : nat) (u : User) :
  creations (replicate n (ReqCreate (Some u))) = n.
Proof. induction n as [| n IH]; simpl; congruence. Qed.

Lemma initialStore_inRange : GoInt.inRange (nextUserID initialStore).
Proof. apply inRange_unfold. simpl. lia. Qed.

(** C5: in every sequence of requests served from the initial store, the
    k-th successful CreateUser call returns the decimal encoding of k,
    whatever requests (deletions included) come in between: the IDs are
    "1", "2", "3", ..., pairwise different and strictly increasing as
    integers, so none is handed out twice.  The side condition is that the
    counter stays in the range of [int], that is, at most 2^63 - 1
    successful CreateUser calls. *)
Theorem C5_ids_sequential_until_counter_wraps (rs : list Request) :
  (Z.of_nat (creations rs) ≤ GoInt.maxInt)%Z →
  createdIDs rs initialStore
    = (λ k : nat, Itoa (Z.of_nat k)) <$> seq 1 (creations rs) ∧
  NoDup (createdIDs rs initialStore) ∧
  increasingFromOne (createdIDs rs initialStore).
Proof.
  intros Hbound.
  assert (Hids : createdIDs rs initialStore
                 = (λ k : nat, Itoa (Z.of_nat k)) <$> seq 1 (creations rs)).
  { rewrite createdIDs_counter by apply initialStore_inRange.
    rewrite <- fmap_S_seq, <- list_fmap_compose.
    apply list_fmap_ext. intros i k Hk. apply lookup_seq in Hk as [-> Hi].
    unfold compose. change (nextUserID initialStore) with 1%Z.
    f_equal. rewrite wrap_inRange.
    - lia.
    - apply inRange_unfold.
      change GoInt.maxInt with 9223372036854775807%Z in Hbound. lia. }
  split; [exact Hids |]. split.
  - rewrite Hids, (list_fmap_compose Z.of_nat Itoa).
    apply NoDup_fmap_2; [apply _ |].
    apply NoDup_fmap_2; [apply _ | apply NoDup_seq].
  - exists (Z.of_nat <$> seq 1 (creations rs)). split; [| split].
    + now rewrite Hids, (list_fmap_compose Z.of_nat Itoa).
    + intros z Hz. rewrite list_lookup_fmap in Hz.
      destruct (seq 1 (creations rs) !! 0) as [k |] eqn:Hk; [| discriminate].
      apply lookup_seq in Hk as [-> _]. injection Hz as <-. reflexivity.
    + intros i j zi zj Hij Hi Hj. rewrite list_lookup_fmap in Hi, Hj.
      destruct (seq 1 (creations rs) !! i) as [ki |] eqn:Hki; [| discriminate].
      destruct (seq 1 (creations rs) !! j) as [kj |] eqn:Hkj; [| discriminate].
      apply lookup_seq in Hki as [-> _]. apply lookup_seq in Hkj as [-> _].
      simpl in Hi, Hj. injection Hi as <-. injection Hj as <-. lia.
Qed.

Lemma C5_ids_sequential_until_counter_wraps_witness :
  createdIDs createDeleteCreate initialStore
    = (λ k : nat, Itoa (Z.of_nat k)) <$> seq 1 (creations createDeleteCreate) ∧
  NoDup (createdIDs createDeleteCreate initialStore) ∧
  increasingFromOne (createdIDs createDeleteCreate initialStore).
Proof.
  apply (C5_ids_sequential_until_counter_wraps createDeleteCreate).
  vm_compute. discriminate.
Defined.

(** The IDs of that run: the ID "2" of the deleted user is not handed out
    again. *)
Example ids_not_reused_after_delete :
  createdIDs createDeleteCreate initialStore = ["1"; "2"; "3"].
Proof. vm_compute. reflexivity. Qed.

(** Why the side condition is there: the counter of the model wraps as a Go
    [int] does.  Of 2^63 CreateUser calls in a row (more than a process can
    serve), the last but one would return "9223372036854775807" and the
    last "-9223372036854775808". *)
Lemma counter_wraps_past_maxInt :
  let rs := replicate (Z.to_nat (2 ^ 63)) (ReqCreate (Some alice)) in
  createdIDs rs initialStore !! Z.to_nat (2 ^ 63 - 2)
    = Some "9223372036854775807" ∧
  createdIDs rs initialStore !! Z.to_nat (2 ^ 63 - 1)
    = Some "-9223372036854775808" ∧
  ¬ increasingFromOne (createdIDs rs initialStore).
Proof.
  intros rs. unfold rs.
  rewrite createdIDs_counter by apply initialStore_inRange.
  rewrite creations_replicate.
  change (nextUserID initialStore) with 1%Z.
  assert (HN : Z.of_nat (Z.to_nat (2 ^ 63)) = 9223372036854775808%Z) by lia.
  assert (Hi : Z.of_nat (Z.to_nat (2 ^ 63 - 2)) = 9223372036854775806%Z) by lia.
  assert (Hj : Z.of_nat (Z.to_nat (2 ^ 63 - 1)) = 9223372036854775807%Z) by lia.
  generalize dependent (Z.to_nat (2 ^ 63 - 2)). intros i Hi.
  generalize dependent (Z.to_nat (2 ^ 63 - 1)). intros j Hj.
  generalize dependent (Z.to_nat (2 ^ 63)). intros N HN.
  assert (Hlast : ∀ (k : nat) (z : Z), (1 + Z.of_nat k = z)%Z → k < N →
            ((λ k : nat, GoInt.wrap (1 + Z.of_nat k)) <$> seq 0 N) !! k
            = Some (GoInt.wrap z)).
  { intros k z <- Hk. now rewrite list_lookup_fmap, lookup_seq_lt. }
  rewrite (list_fmap_compose (λ k : nat, GoInt.wrap (1 + Z.of_nat k)) Itoa).
  split; [| split].
  - rewrite list_lookup_fmap.
    rewrite (Hlast i 9223372036854775807%Z) by lia. reflexivity.
  - rewrite list_lookup_fmap.
    rewrite (Hlast j 9223372036854775808%Z) by lia. reflexivity.
  - intros (zs & Heq & _ & Hinc).
    apply (inj (fmap Itoa)) in Heq. subst zs.
    specialize (Hinc i j (GoInt.wrap 9223372036854775807)
                  (GoInt.wrap 9223372036854775808)).
    assert (Hlt : (GoInt.wrap 9223372036854775807
                   < GoInt.wrap 9223372036854775808)%Z).
    { apply Hinc; [lia | apply Hlast; lia | apply Hlast; lia]. }
    vm_compute in Hlt. discriminate.
Qed.

(** ** Stores built without friend lists stay mirrored *)

Lemma mirrored_same_lists (m m' : gmap string User) :
  (∀ k, friendsOf m' k = friendsOf m k) → mirrored m → mirrored m'.
Proof. intros Heq Hm A B. rewrite !Heq. apply Hm. Qed.

Lemma friendsOf_updateUserAge (s : Store) (id : string) (d : option Z) k :
  friendsOf (users (updateUserAgeHandler id d s).1) k = friendsOf (users s) k.
Proof.
  unfold updateUserAgeHandler. destruct d as [age |]; [| reflexivity].
  destruct (users s !! id) as [u |] eqn:Hu; [| reflexivity]. simpl.
  unfold friendsOf. rewrite lookup_insert. case_decide as Hk; [| reflexivity].
  subst k. now rewrite Hu.
Qed.

Lemma updateUserAge_keys (s : Store) (id : string) (d : option Z) k :
  is_Some (users (updateUserAgeHandler id d s).1 !! k) → is_Some (users s !! k).
Proof.
  unfold updateUserAgeHandler. destruct d as [age |]; [| done].
  destruct (users s !! id) as [u |] eqn:Hu; [| done]. simpl.
  rewrite lookup_insert. case_decide as Hk; [| done].
  subst k. now rewrite Hu.
Qed.

Lemma DeleteUser_keys (s : Store) (X : string) k :
  is_Some (users (DeleteUser X s).1 !! k) → is_Some (users s !! k).
Proof.
  destruct (users s !! X) as [u |] eqn:Hx; [| now rewrite DeleteUser_missing].
  rewrite (DeleteUser_lookup s X u k Hx). case_decide.
  - intros [? [=]].
  - now rewrite fmap_is_Some.
Qed.

Lemma friendsOf_CreateUser (newUser : User) (s : Store) k :
  friendsOf (users (CreateUser newUser s).1) k
  = if decide (k = Itoa (nextUserID s)) then Friends newUser
    else friendsOf (users s) k.
Proof.
  rewrite CreateUser_eq. simpl. unfold friendsOf. rewrite lookup_insert.
  case_decide as Hk; subst; now rewrite ?decide_True, ?decide_False by congruence.
Qed.

Lemma keysBelowCounter_fresh (s : Store) :
  keysBelowCounter s → users s !! Itoa (nextUserID s) = None.
Proof.
  intros Hkeys. destruct (users s !! Itoa (nextUserID s)) as [u |] eqn:Hu;
    [| reflexivity].
  destruct (Hkeys _ (mk_is_Some _ _ Hu)) as (z & Hz & Hlt).
  apply (inj Itoa) in Hz. lia.
Qed.

Lemma mirrored_CreateUser_fresh (newUser : User) (s : Store) :
  mirrored (users s) → users s !! Itoa (nextUserID s) = None →
  Friends newUser = [] → mirrored (users (CreateUser newUser s).1).
Proof.
  intros Hm Hfresh Hnil.
  assert (Hnone : friendsOf (users s) (Itoa (nextUserID s)) = []).
  { unfold friendsOf. now rewrite Hfresh. }
  assert (Hunlisted : ∀ P, occ (Itoa (nextUserID s)) (friendsOf (users s) P) = 0).
  { intros P. now rewrite (Hm P), Hnone. }
  intros P Q. rewrite !friendsOf_CreateUser, Hnil.
  repeat case_decide; subst; rewrite ?occ_nil, ?Hunlisted; auto.
Qed.

Lemma consistent_initialStore : consistent initialStore.
Proof.
  split; [| split; [| split]].
  - intros A B. reflexivity.
  - intros k [u Hu]. simpl in Hu. now rewrite lookup_empty in Hu.
  - simpl. lia.
  - apply initialStore_inRange.
Qed.

(** One request keeps the store consistent, provided a creation carries no
    friends and does not exhaust the counter. *)
Lemma consistent_handle (r : Request) (s : Store) :
  consistent s →
  (∀ u, r = ReqCreate (Some u) →
        Friends u = [] ∧ (nextUserID s < GoInt.maxInt)%Z) →
  consistent (handle r s).1.
Proof.
  intros (Hm & Hkeys & Hone & Hrange) Hcreate.
  pose proof (conj Hm (conj Hkeys (conj Hone Hrange))) as Hs.
  destruct r as [[u |] | e | [[A B] |] | [X |] | id e | id d]; cbn [handle];
    try exact Hs.
  - destruct (Hcreate u eq_refl) as [Hnil Hroom].
    change (createUserHandler (Some u) s) with (CreateUser u s).
    assert (Hnext : GoInt.wrap (nextUserID s + 1) = (nextUserID s + 1)%Z).
    { apply wrap_inRange, inRange_unfold.
      change GoInt.maxInt with 9223372036854775807%Z in Hroom. lia. }
    split; [| split; [| split]].
    + apply mirrored_CreateUser_fresh; auto using keysBelowCounter_fresh.
    + intros k Hk. rewrite CreateUser_eq in Hk |- *. simpl in Hk |- *.
      rewrite Hnext. rewrite lookup_insert in Hk. case_decide as Hid.
      * exists (nextUserID s). split; [congruence | lia].
      * destruct (Hkeys k Hk) as (z & -> & Hz). exists z. split; [done | lia].
    + rewrite CreateUser_eq. simpl. rewrite Hnext. lia.
    + rewrite CreateUser_eq. simpl. apply inRange_wrap.
  - unfold getAllUsersHandler. destruct (size (users s) =? 0)%nat; [exact Hs |].
    now destruct e.
  - change (makeFriendsHandler (Some (mkFriendship A B)) s) with (Link A B s).
    split; [now apply mirrored_Link |].
    assert (Hctr : nextUserID (Link A B s).1 = nextUserID s).
    { apply (handle_no_creation (ReqMakeFriends (Some (mkFriendship A B))) s).
      discriminate. }
    split; [| now rewrite Hctr].
    intros k Hk. rewrite Hctr. apply Hkeys. now apply (Link_keeps_users s A B k).
  - change (deleteUserHandler (Some X) s) with (DeleteUser X s).
    split; [now apply mirrored_DeleteUser |].
    assert (Hctr : nextUserID (DeleteUser X s).1 = nextUserID s).
    { apply (handle_no_creation (ReqDeleteUser (Some X)) s). discriminate. }
    split; [| now rewrite Hctr].
    intros k Hk. rewrite Hctr. apply Hkeys. now apply (DeleteUser_keys s X k).
  - unfold getUserFriendsHandler. destruct (users s !! id); [| exact Hs].
    now destruct e.
  - split; [| split].
    + eapply mirrored_same_lists; [| exact Hm].
      apply friendsOf_updateUserAge.
    + assert (Hctr : nextUserID (updateUserAgeHandler id d s).1 = nextUserID s).
      { apply (handle_no_creation (ReqUserAge id d) s). discriminate. }
      intros k Hk. rewrite Hctr. apply Hkeys.
      now apply (updateUserAge_keys s id d k).
    + assert (Hctr : nextUserID (updateUserAgeHandler id d s).1 = nextUserID s).
      { apply (handle_no_creation (ReqUserAge id d) s). discriminate. }
      now rewrite Hctr.
Qed.

(** Friend lists mirror each other in every store reached from the initial
    one by requests whose creations carry no friends, as long as the
    counter has not wrapped; there DeleteUser leaves no entry behind. *)
Lemma serve_consistent (rs : list Request) (s : Store) :
  consistent s → plainCreates rs →
  (nextUserID s + Z.of_nat (creations rs) ≤ GoInt.maxInt)%Z →
  consistent (serve rs s).1.
Proof.
  revert s. induction rs as [| r rs IH]; intros s Hs Hplain Hroom; [exact Hs |].
  rewrite serve_cons. cbn [fst].
  assert (Hstep : consistent (handle r s).1).
  { apply consistent_handle; [exact Hs |]. intros u ->. split.
    - apply Hplain, list_elem_of_here.
    - cbn [creations] in Hroom. lia. }
  apply IH; [exact Hstep | |].
  - intros u Hu. apply Hplain. now apply list_elem_of_further.
  - destruct (creation_cases r) as [[u ->] | Hr].
    2:{ rewrite (proj2 (handle_no_creation r s Hr)).
        now rewrite creations_cons_other in Hroom. }
    change (handle (ReqCreate (Some u)) s) with (CreateUser u s).
    rewrite CreateUser_eq. cbn [fst nextUserID creations] in Hroom |- *.
    destruct Hs as (_ & _ & Hone & _).
    rewrite wrap_inRange.
    + lia.
    + apply inRange_unfold.
      change GoInt.maxInt with 9223372036854775807%Z in Hroom. lia.
Qed.

Lemma reachable_mirrored (rs : list Request) :
  plainCreates rs → (Z.of_nat (creations rs) < GoInt.maxInt)%Z →
  mirrored (users (serve rs initialStore).1).
Proof.
  intros Hplain Hroom. apply (serve_consistent rs initialStore).
  - apply consistent_initialStore.
  - exact Hplain.
  - change (nextUserID initialStore) with 1%Z. lia.
Qed.

(** The scenario of the specification: create A and B, link them, change
    A's age, delete B. *)
Example spec_scenario :
  let rs := [ReqCreate (Some (mkUser "A" 30 []));
             ReqCreate (Some (mkUser "B" 25 []));
             ReqMakeFriends (Some (mkFriendship "1" "2"));
             ReqUserAge "1" (Some 31%Z)] in
  let s := (serve rs initialStore).1 in
  friendsOf (users s) "1" = ["2"] ∧ friendsOf (users s) "2" = ["1"] ∧
  Age <$> users s !! "1" = Some 31%Z ∧
  users (DeleteUser "2" s).1 = {[ "1" := mkUser "A" 31 [] ]}.
Proof. vm_compute. repeat split; reflexivity. Qed.

(** * Further properties of the handlers *)

(** ** Update of the age *)

Lemma UpdateAge_found (s : Store) (id : string) (u : User) (newAge : Z) :
  users s !! id = Some u →
  UpdateAge id newAge s =
    (mkStore (<[id := mkUser (Name u) newAge (Friends u)]> (users s))
             (nextUserID s),
     mkResponse StatusOK (Text "Возраст пользователя успешно обновлён")).
Proof. intros Hu. unfold UpdateAge, updateUserAgeHandler. now rewrite Hu. Qed.

Lemma UpdateAge_missing (s : Store) (id : string) (newAge : Z) :
  users s !! id = None →
  UpdateAge id newAge s = (s, httpError "User not found" StatusBadRequest).
Proof. intros Hu. unfold UpdateAge, updateUserAgeHandler. now rewrite Hu. Qed.

(** X1: for a stored user, UpdateAge answers 200 and rewrites the record
    with the new age, whatever it is, and the old name and friend list; no
    other record and not the counter is changed. *)
Theorem X1_update_age_overwrites_only_age
  (s : Store) (id : string) (u : User) (newAge : Z) :
  users s !! id = Some u →
  status (UpdateAge id newAge s).2 = StatusOK ∧
  users (UpdateAge id newAge s).1 !! id
    = Some (mkUser (Name u) newAge (Friends u)) ∧
  (∀ k, k ≠ id → users (UpdateAge id newAge s).1 !! k = users s !! k) ∧
  nextUserID (UpdateAge id newAge s).1 = nextUserID s.
Proof.
  intros Hu. rewrite (UpdateAge_found s id u newAge Hu). simpl.
  split; [reflexivity |]. split; [apply lookup_insert_eq |].
  split; [| reflexivity]. intros k Hk. now rewrite lookup_insert_ne.
Qed.

Lemma X1_update_age_overwrites_only_age_witness :
  status (UpdateAge "1" (-4) twoUsers).2 = StatusOK ∧
  users (UpdateAge "1" (-4) twoUsers).1 !! "1"
    = Some (mkUser (Name alice) (-4) (Friends alice)) ∧
  (∀ k, k ≠ "1" →
     users (UpdateAge "1" (-4) twoUsers).1 !! k = users twoUsers !! k) ∧
  nextUserID (UpdateAge "1" (-4) twoUsers).1 = nextUserID twoUsers.
Proof.
  apply (X1_update_age_overwrites_only_age twoUsers "1" alice (-4)).
  vm_compute. reflexivity.
Defined.

(** X2: with a decoded body UpdateAge answers 200 exactly when the user is
    stored and 400 otherwise; of two updates of the same user in a row only
    the second shows in the store. *)
Theorem X2_update_age_last_write_wins
  (s : Store) (id : string) (a1 a2 : Z) :
  (status (UpdateAge id a2 s).2 = StatusOK ↔ is_Some (users s !! id)) ∧
  (status (UpdateAge id a2 s).2 = StatusBadRequest ↔ users s !! id = None) ∧
  (UpdateAge id a2 (UpdateAge id a1 s).1).1 = (UpdateAge id a2 s).1.
Proof.
  destruct (users s !! id) as [u |] eqn:Hu.
  - split; [| split].
    + rewrite (UpdateAge_found s id u a2 Hu). simpl. split; eauto.
    + rewrite (UpdateAge_found s id u a2 Hu). simpl.
      unfold StatusOK, StatusBadRequest. split; discriminate.
    + rewrite (UpdateAge_found s id u a1 Hu). cbn [fst].
      rewrite (UpdateAge_found _ id (mkUser (Name u) a1 (Friends u)) a2)
        by apply lookup_insert_eq.
      rewrite (UpdateAge_found s id u a2 Hu). simpl.
      now rewrite insert_insert_eq.
  - split; [| split].
    + rewrite (UpdateAge_missing s id a2 Hu). simpl.
      unfold StatusOK, StatusBadRequest. split; [discriminate |].
      intros [? [=]].
    + rewrite (UpdateAge_missing s id a2 Hu). split; reflexivity.
    + rewrite (UpdateAge_missing s id a1 Hu). reflexivity.
Qed.

(** ** Failed requests *)

(** X3: a request that is not answered 200 or 201 leaves the store as it
    was: the map is untouched and no ID is used up. *)
Theorem X3_error_response_leaves_store (r : Request) (s : Store) :
  status (handle r s).2 ≠ StatusOK →
  status (handle r s).2 ≠ StatusCreated →
  (handle r s).1 = s.
Proof.
  intros Hok Hcreated.
  destruct r as [[u |] | e | [fr |] | [X |] | id e | id [age |]];
    cbn [handle] in *; try reflexivity.
  - now destruct Hcreated.
  - unfold getAllUsersHandler. destruct (size (users s) =? 0)%nat; [done |].
    now destruct e.
  - unfold makeFriendsHandler in *.
    destruct (users s !! SourceID fr); [| done].
    destruct (users s !! TargetID fr); [| done]. now destruct Hok.
  - unfold deleteUserHandler in *.
    destruct (users s !! X); [| done]. now destruct Hok.
  - unfold getUserFriendsHandler. destruct (users s !! id); [| done].
    now destruct e.
  - unfold updateUserAgeHandler in *.
    destruct (users s !! id); [| done]. now destruct Hok.
Qed.

Lemma X3_error_response_leaves_store_witness :
  (handle (ReqMakeFriends (Some (mkFriendship "1" "9"))) twoUsers).1 = twoUsers.
Proof.
  apply (X3_error_response_leaves_store
           (ReqMakeFriends (Some (mkFriendship "1" "9"))) twoUsers).
  - vm_compute. discriminate.
  - vm_compute. discriminate.
Defined.

(** X4: with a decoded body DeleteUser answers 400 exactly when the ID is
    not stored, and then changes nothing; whatever the first call did, a
    second DeleteUser of the same ID answers 400 "User not found" and
    changes nothing. *)
Theorem X4_delete_twice_fails (s : Store) (X : string) :
  (status (DeleteUser X s).2 = StatusBadRequest ↔ users s !! X = None) ∧
  (status (DeleteUser X s).2 = StatusOK ↔ is_Some (users s !! X)) ∧
  (users s !! X = None → (DeleteUser X s).1 = s) ∧
  DeleteUser X (DeleteUser X s).1
    = ((DeleteUser X s).1, httpError "User not found" StatusBadRequest).
Proof.
  destruct (users s !! X) as [u |] eqn:Hx.
  - split; [| split; [| split]].
    + rewrite (DeleteUser_found s X u Hx). simpl.
      unfold StatusOK, StatusBadRequest. split; discriminate.
    + rewrite (DeleteUser_found s X u Hx). simpl. split; eauto.
    + discriminate.
    + apply DeleteUser_missing.
      now rewrite (DeleteUser_lookup s X u X Hx), decide_True.
  - rewrite (DeleteUser_missing s X Hx). simpl. split; [| split; [| split]].
    + split; reflexivity.
    + unfold StatusOK, StatusBadRequest. split; [discriminate |].
      intros [? [=]].
    + reflexivity.
    + now apply DeleteUser_missing.
Qed.

(** ** Cutting one entry out of a list *)

Section RemoveFirstShape.

Variable target : string.
Implicit Types (l : list string) (n : nat).

Lemma length_removeFirst l :
  length (removeFirst target l)
  = length l - (if decide (target ∈ l) then 1 else 0).
Proof.
  induction l as [| x l IH]; cbn [removeFirst length].
  - now rewrite decide_False by apply not_elem_of_nil.
  - destruct (decide (x = target)) as [-> | Hne].
    + rewrite decide_True by apply list_elem_of_here. lia.
    + cbn [length]. rewrite IH.
      destruct (decide (target ∈ l)) as [Hin | Hnot].
      * rewrite decide_True by now apply list_elem_of_further.
        destruct l; [now apply elem_of_nil in Hin | simpl; lia].
      * rewrite decide_False; [lia |].
        rewrite elem_of_cons. intros [-> | ?]; contradiction.
Qed.

Lemma filter_removeFirst l :
  filter (λ id, id ≠ target) (removeFirst target l)
  = filter (λ id, id ≠ target) l.
Proof.
  induction l as [| x l IH]; cbn [removeFirst]; [reflexivity |].
  destruct (decide (x = target)) as [-> | Hne].
  - now rewrite filter_cons_False by (intros H; now apply H).
  - now rewrite !filter_cons_True, IH by assumption.
Qed.

Lemma filter_iter_removeFirst n l :
  filter (λ id, id ≠ target) (Nat.iter n (removeFirst target) l)
  = filter (λ id, id ≠ target) l.
Proof.
  induction n as [| n IH]; simpl; [reflexivity |].
  now rewrite filter_removeFirst.
Qed.

Lemma sublist_removeFirst l : removeFirst target l `sublist_of` l.
Proof.
  induction l as [| x l IH]; cbn [removeFirst]; [reflexivity |].
  destruct (decide (x = target)).
  - now apply sublist_cons.
  - now apply sublist_skip.
Qed.

Lemma iter_removeFirst_absent n l :
  target ∉ l → Nat.iter n (removeFirst target) l = l.
Proof.
  intros Hnot. induction n as [| n IH]; simpl; [reflexivity |].
  rewrite IH. now apply removeFirst_absent.
Qed.

End RemoveFirstShape.

(** X13: the inner loop of the cascade shortens the list by one entry when
    the target occurs in it and returns the list itself otherwise; the
    entries it keeps stay in their order, and no entry other than the
    target is lost. *)
Theorem X13_removeFirst_cuts_at_most_one (target : string) (l : list string) :
  length (removeFirst target l)
    = length l - (if decide (target ∈ l) then 1 else 0) ∧
  removeFirst target l `sublist_of` l ∧
  filter (λ id, id ≠ target) (removeFirst target l)
    = filter (λ id, id ≠ target) l ∧
  (target ∉ l → removeFirst target l = l).
Proof.
  split; [apply length_removeFirst |].
  split; [apply sublist_removeFirst |].
  split; [apply filter_removeFirst | apply removeFirst_absent].
Qed.

(** ** What DeleteUser and Link leave alone *)

Lemma setFriends_same (f : User) : setFriends f (Friends f) = f.
Proof. now destruct f. Qed.

Lemma scanned_zero (target : string) (f : User) : scanned target 0 f = f.
Proof. apply setFriends_same. Qed.

Lemma DeleteUser_dom (s : Store) (X : string) (u : User) :
  users s !! X = Some u →
  dom (users (DeleteUser X s).1) = dom (users s) ∖ {[X]}.
Proof.
  intros Hx. apply set_eq. intros k.
  rewrite elem_of_difference, !elem_of_dom, not_elem_of_singleton.
  rewrite (DeleteUser_lookup s X u k Hx). case_decide as Hk.
  - split; [intros [? [=]] | intros [_ ?]; contradiction].
  - rewrite fmap_is_Some. tauto.
Qed.

(** X5: when a stored user X is deleted, the keys of the map are the old
    ones without X, so the map holds one user less, and the counter stays.
    Every other user keeps its name and age, and its friend list keeps all
    entries other than X in their order; a user that X did not list, or
    that did not list X, keeps its whole record. *)
Theorem X5_delete_keeps_other_data (s : Store) (X : string) (u : User) :
  users s !! X = Some u →
  dom (users (DeleteUser X s).1) = dom (users s) ∖ {[X]} ∧
  size (users (DeleteUser X s).1) = pred (size (users s)) ∧
  nextUserID (DeleteUser X s).1 = nextUserID s ∧
  ∀ F f, F ≠ X → users s !! F = Some f →
    ∃ f', users (DeleteUser X s).1 !! F = Some f' ∧
          Name f' = Name f ∧ Age f' = Age f ∧
          filter (λ id, id ≠ X) (Friends f')
            = filter (λ id, id ≠ X) (Friends f) ∧
          (F ∉ Friends u ∨ X ∉ Friends f → f' = f).
Proof.
  intros Hx.
  split; [now apply DeleteUser_dom with u |]. split.
  { rewrite <- !size_dom, (DeleteUser_dom s X u Hx).
    rewrite size_difference by (apply singleton_subseteq_l, elem_of_dom; eauto).
    rewrite size_singleton. lia. }
  split; [now rewrite (DeleteUser_found s X u Hx) |].
  intros F f HF Hf. eexists. split.
  { rewrite (DeleteUser_lookup s X u F Hx), decide_False by assumption.
    rewrite Hf. reflexivity. }
  split; [reflexivity |]. split; [reflexivity |]. split.
  { apply filter_iter_removeFirst. }
  intros [HFu | HXf].
  - apply occ_zero in HFu. rewrite HFu. apply scanned_zero.
  - unfold scanned. rewrite iter_removeFirst_absent by assumption.
    apply setFriends_same.
Qed.

Lemma X5_delete_keeps_other_data_witness :
  let s := repeatedEntries in
  let X := "1" in
  let u := mkUser "Alice" 30 ["2"] in
  dom (users (DeleteUser X s).1) = dom (users s) ∖ {[X]} ∧
  size (users (DeleteUser X s).1) = pred (size (users s)) ∧
  nextUserID (DeleteUser X s).1 = nextUserID s ∧
  ∀ F f, F ≠ X → users s !! F = Some f →
    ∃ f', users (DeleteUser X s).1 !! F = Some f' ∧
          Name f' = Name f ∧ Age f' = Age f ∧
          filter (λ id, id ≠ X) (Friends f')
            = filter (λ id, id ≠ X) (Friends f) ∧
          (F ∉ Friends u ∨ X ∉ Friends f → f' = f).
Proof.
  apply (X5_delete_keeps_other_data repeatedEntries "1"
           (mkUser "Alice" 30 ["2"])).
  vm_compute. reflexivity.
Defined.

Lemma cascade_unresolved (target : string) (fs : list string)
  (m : gmap string User) :
  (∀ F, F ∈ fs → m !! F = None) → cascade target fs m = m.
Proof.
  intros Hnone. apply map_eq. intros k. rewrite cascade_lookup.
  destruct (decide (k ∈ fs)) as [Hin | Hnot].
  - now rewrite (Hnone k Hin).
  - apply occ_zero in Hnot. rewrite Hnot.
    destruct (m !! k) as [f |]; simpl; [| reflexivity].
    now rewrite scanned_zero.
Qed.

(** X15: the cascade skips the listed IDs that are not stored, the deleted
    user's own ID among them: when the deleted user lists only itself and
    unknown IDs, DeleteUser succeeds and the map is the old one without that
    user. *)
Theorem X15_delete_skips_unresolved (s : Store) (X : string) (u : User) :
  users s !! X = Some u →
  (∀ F, F ∈ Friends u → F = X ∨ users s !! F = None) →
  DeleteUser X s =
    (mkStore (delete X (users s)) (nextUserID s),
     mkResponse StatusOK (Text (Name u +:+ " удалён"))).
Proof.
  intros Hx Hfs. rewrite (DeleteUser_found s X u Hx).
  rewrite cascade_unresolved; [reflexivity |].
  intros F HF. destruct (Hfs F HF) as [-> | Hnone].
  - apply lookup_delete_eq.
  - rewrite lookup_delete_ne; [exact Hnone |]. intros <-. congruence.
Qed.

Lemma X15_delete_skips_unresolved_witness :
  DeleteUser "1" selfListed =
    (mkStore (delete "1" (users selfListed)) (nextUserID selfListed),
     mkResponse StatusOK
       (Text (Name (mkUser "Alice" 30 ["1"; "7"]) +:+ " удалён"))).
Proof.
  apply (X15_delete_skips_unresolved selfListed "1"
           (mkUser "Alice" 30 ["1"; "7"])).
  - vm_compute. reflexivity.
  - intros F HF. apply elem_of_cons in HF as [-> | HF]; [now left |].
    apply list_elem_of_singleton in HF as ->. right. vm_compute. reflexivity.
Defined.

Lemma Link_lookup (s : Store) (A B : string) (ua ub : User) (k : string) :
  users s !! A = Some ua → users s !! B = Some ub →
  users (Link A B s).1 !! k
  = if decide (k = B) then Some (setFriends ub (Friends ub ++ [A]))
    else if decide (k = A) then Some (setFriends ua (Friends ua ++ [B]))
    else users s !! k.
Proof.
  intros Ha Hb. rewrite (Link_found s A B ua ub Ha Hb). simpl.
  rewrite !lookup_insert.
  destruct (decide (k = B)) as [-> | HkB].
  - now rewrite decide_True.
  - rewrite decide_False by congruence.
    destruct (decide (k = A)) as [-> | HkA].
    + now rewrite decide_True.
    + now rewrite decide_False by congruence.
Qed.

(** X6: a successful Link changes nothing but the two friend lists: the map
    has the same keys, the counter stays, every record other than the two
    linked ones is the old one, and every user keeps its name and age. *)
Theorem X6_link_changes_only_two_friend_lists (s : Store) (A B : string) :
  is_Some (users s !! A) → is_Some (users s !! B) →
  dom (users (Link A B s).1) = dom (users s) ∧
  nextUserID (Link A B s).1 = nextUserID s ∧
  (∀ k, k ≠ A → k ≠ B → users (Link A B s).1 !! k = users s !! k) ∧
  (∀ k u', users (Link A B s).1 !! k = Some u' →
     ∃ u, users s !! k = Some u ∧ Name u' = Name u ∧ Age u' = Age u).
Proof.
  intros [ua Ha] [ub Hb]. split; [| split; [| split]].
  - apply set_eq. intros k. rewrite !elem_of_dom. apply Link_keeps_users.
  - now rewrite (Link_found s A B ua ub Ha Hb).
  - intros k HkA HkB. rewrite (Link_lookup s A B ua ub k Ha Hb).
    now rewrite !decide_False.
  - intros k u'. rewrite (Link_lookup s A B ua ub k Ha Hb).
    repeat case_decide; subst.
    + intros [= <-]. eauto.
    + intros [= <-]. eauto.
    + eauto.
Qed.

Lemma X6_link_changes_only_two_friend_lists_witness :
  dom (users (Link "1" "2" repeatedEntries).1) = dom (users repeatedEntries) ∧
  nextUserID (Link "1" "2" repeatedEntries).1 = nextUserID repeatedEntries ∧
  (∀ k, k ≠ "1" → k ≠ "2" →
     users (Link "1" "2" repeatedEntries).1 !! k = users repeatedEntries !! k) ∧
  (∀ k u', users (Link "1" "2" repeatedEntries).1 !! k = Some u' →
     ∃ u, users repeatedEntries !! k = Some u ∧
          Name u' = Name u ∧ Age u' = Age u).
Proof.
  apply (X6_link_changes_only_two_friend_lists repeatedEntries "1" "2").
  - vm_compute. eauto.
  - vm_compute. eauto.
Defined.

(** X7: linking A to a stored user B that A does not list yet, and then
    deleting B, gives A its old friend list back, entry for entry: the
    cascade of the deletion cuts out the entry that Link appended.  A's
    name and age are the old ones, and B is gone. *)
Theorem X7_link_then_delete_restores_entries (s : Store) (A B : string) :
  A ≠ B → is_Some (users s !! A) → is_Some (users s !! B) →
  B ∉ friendsOf (users s) A →
  let s' := (DeleteUser B (Link A B s).1).1 in
  status (DeleteUser B (Link A B s).1).2 = StatusOK ∧
  users s' !! B = None ∧
  friendsOf (users s') A = friendsOf (users s) A ∧
  length (friendsOf (users s') A) = length (friendsOf (users s) A) ∧
  ∃ ua ua', users s !! A = Some ua ∧ users s' !! A = Some ua' ∧
            Name ua' = Name ua ∧ Age ua' = Age ua.
Proof.
  intros Hne [ua Ha] [ub Hb] Hnot s'.
  assert (Hb1 : users (Link A B s).1 !! B
                = Some (setFriends ub (Friends ub ++ [A]))).
  { now rewrite (Link_lookup s A B ua ub B Ha Hb), decide_True. }
  assert (Ha1 : users (Link A B s).1 !! A
                = Some (setFriends ua (Friends ua ++ [B]))).
  { rewrite (Link_lookup s A B ua ub A Ha Hb).
    now rewrite decide_False, decide_True by congruence. }
  assert (Hentries : Nat.iter (occ A (Friends ub ++ [A])) (removeFirst B)
                       (Friends ua ++ [B]) = Friends ua).
  { unfold friendsOf in Hnot. rewrite Ha in Hnot.
    rewrite occ_app, occ_cons_eq, occ_nil, Nat.add_1_r.
    rewrite <- iter_removeFirst_shift.
    rewrite (removeFirst_first B (Friends ua) []) by assumption.
    now rewrite app_nil_r, iter_removeFirst_absent. }
  assert (Ha2 : users s' !! A
                = Some (mkUser (Name ua) (Age ua) (Friends ua))).
  { unfold s'. rewrite (DeleteUser_lookup _ B _ A Hb1).
    rewrite decide_False by assumption. rewrite Ha1. simpl.
    unfold scanned, setFriends. cbn [Friends Name Age].
    now rewrite Hentries. }
  assert (Hlist : friendsOf (users s') A = friendsOf (users s) A).
  { unfold friendsOf. now rewrite Ha2, Ha. }
  split; [now rewrite (DeleteUser_found _ B _ Hb1) |].
  split.
  { unfold s'. now rewrite (DeleteUser_lookup _ B _ B Hb1), decide_True. }
  split; [exact Hlist |]. split; [now rewrite Hlist |].
  exists ua, (mkUser (Name ua) (Age ua) (Friends ua)). auto.
Qed.

Lemma X7_link_then_delete_restores_entries_witness :
  let s' := (DeleteUser "2" (Link "1" "2" selfListed).1).1 in
  status (DeleteUser "2" (Link "1" "2" selfListed).1).2 = StatusOK ∧
  users s' !! "2" = None ∧
  friendsOf (users s') "1" = friendsOf (users selfListed) "1" ∧
  length (friendsOf (users s') "1")
    = length (friendsOf (users selfListed) "1") ∧
  ∃ ua ua', users selfListed !! "1" = Some ua ∧
            users s' !! "1" = Some ua' ∧
            Name ua' = Name ua ∧ Age ua' = Age ua.
Proof.
  apply (X7_link_then_delete_restores_entries selfListed "1" "2").
  - discriminate.
  - vm_compute. eauto.
  - vm_compute. eauto.
  - change (friendsOf (users selfListed) "1") with ["1"; "7"].
    intros H. apply elem_of_cons in H as [[=] | H].
    apply elem_of_cons in H as [[=] | H]. now apply elem_of_nil in H.
Defined.

(** ** Mirrored friend lists, request by request *)

Lemma mirrored_bidirectional (m : gmap string User) :
  mirrored m → bidirectional m.
Proof.
  intros Hm A B ua Ha HB.
  assert (Hpos : 0 < occ A (friendsOf m B)).
  { rewrite <- (Hm A B). apply occ_pos. unfold friendsOf. now rewrite Ha. }
  apply occ_pos in Hpos. unfold friendsOf in Hpos.
  destruct (m !! B) as [ub |]; [eauto |]. now apply elem_of_nil in Hpos.
Qed.

Lemma friendless_plainCreates (rs : list Request) :
  friendless rs = true → plainCreates rs.
Proof.
  induction rs as [| r rs IH]; intros Hrs u Hu.
  - now apply elem_of_nil in Hu.
  - apply elem_of_cons in Hu as [<- | Hu].
    + simpl in Hrs. now destruct (Friends u).
    + apply IH; [| exact Hu].
      destruct r as [[v |] | | | | |]; simpl in Hrs; try exact Hrs.
      now destruct (Friends v).
Qed.

(** X12: mirrored friend lists are bidirectionally consistent, and every
    request keeps them mirrored, from whatever store, provided that a
    creation carries no friends and gets an ID that is not in use. *)
Theorem X12_requests_keep_lists_mirrored (s : Store) (r : Request) :
  mirrored (users s) →
  (∀ u, r = ReqCreate (Some u) →
        Friends u = [] ∧ users s !! Itoa (nextUserID s) = None) →
  bidirectional (users s) ∧
  mirrored (users (handle r s).1) ∧
  bidirectional (users (handle r s).1).
Proof.
  intros Hm Hcreate.
  assert (Hstep : mirrored (users (handle r s).1)).
  { destruct r as [[u |] | e | [[A B] |] | [X |] | id e | id d];
      cbn [handle]; try exact Hm.
    - destruct (Hcreate u eq_refl) as [Hnil Hfresh].
      now apply (mirrored_CreateUser_fresh u s).
    - unfold getAllUsersHandler. destruct (size (users s) =? 0)%nat; [done |].
      now destruct e.
    - apply (mirrored_Link s A B Hm).
    - apply (mirrored_DeleteUser s X Hm).
    - unfold getUserFriendsHandler. destruct (users s !! id); [| done].
      now destruct e.
    - eapply mirrored_same_lists; [| exact Hm].
      apply friendsOf_updateUserAge. }
  auto using mirrored_bidirectional.
Qed.

Lemma X12_requests_keep_lists_mirrored_witness :
  bidirectional (users (Link "1" "2" twoUsers).1) ∧
  mirrored (users (handle (ReqDeleteUser (Some "2")) (Link "1" "2" twoUsers).1).1) ∧
  bidirectional
    (users (handle (ReqDeleteUser (Some "2")) (Link "1" "2" twoUsers).1).1).
Proof.
  apply (X12_requests_keep_lists_mirrored (Link "1" "2" twoUsers).1
           (ReqDeleteUser (Some "2"))).
  - apply mirrored_Link.
    apply (reachable_mirrored [ReqCreate (Some alice); ReqCreate (Some bob)]).
    + apply friendless_plainCreates. reflexivity.
    + vm_compute. reflexivity.
  - discriminate.
Defined.

(** X8: in every store reached from the initial one by requests whose
    creations carry no friends (and fewer than 2^63 - 1 of them), the
    friend lists mirror each other and are bidirectionally consistent; in
    particular every listed ID is a stored user. *)
Theorem X8_friendless_creations_keep_consistency (rs : list Request) :
  friendless rs = true →
  (Z.of_nat (creations rs) < GoInt.maxInt)%Z →
  let m := users (serve rs initialStore).1 in
  mirrored m ∧ bidirectional m ∧
  (∀ A B, B ∈ friendsOf m A → is_Some (m !! B)).
Proof.
  intros Hrs Hroom m.
  assert (Hm : mirrored m).
  { apply reachable_mirrored; [now apply friendless_plainCreates | exact Hroom]. }
  split; [exact Hm |]. split; [now apply mirrored_bidirectional |].
  intros A B HB. unfold friendsOf in HB.
  destruct (m !! A) as [ua |] eqn:Ha; [| now apply elem_of_nil in HB].
  destruct (mirrored_bidirectional m Hm A B ua Ha HB) as (ub & Hub & _). eauto.
Qed.

Lemma X8_friendless_creations_keep_consistency_witness :
  let rs := [ReqCreate (Some alice); ReqCreate (Some bob);
             ReqMakeFriends (Some (mkFriendship "1" "2"));
             ReqMakeFriends (Some (mkFriendship "2" "2"));
             ReqCreate (Some (mkUser "Carol" 41 []));
             ReqMakeFriends (Some (mkFriendship "3" "1"));
             ReqDeleteUser (Some "1")] in
  let m := users (serve rs initialStore).1 in
  mirrored m ∧ bidirectional m ∧
  (∀ A B, B ∈ friendsOf m A → is_Some (m !! B)).
Proof.
  apply (X8_friendless_creations_keep_consistency
           [ReqCreate (Some alice); ReqCreate (Some bob);
            ReqMakeFriends (Some (mkFriendship "1" "2"));
            ReqMakeFriends (Some (mkFriendship "2" "2"));
            ReqCreate (Some (mkUser "Carol" 41 []));
            ReqMakeFriends (Some (mkFriendship "3" "1"));
            ReqDeleteUser (Some "1")]).
  - reflexivity.
  - vm_compute. reflexivity.
Defined.

(** ** Fresh IDs *)

Lemma counted_initialStore : counted initialStore.
Proof.
  split; [| split].
  - intros k [u Hu]. simpl in Hu. now rewrite lookup_empty in Hu.
  - simpl. lia.
  - apply initialStore_inRange.
Qed.

Lemma handle_keys (r : Request) (s : Store) (k : string) :
  (∀ u, r ≠ ReqCreate (Some u)) →
  is_Some (users (handle r s).1 !! k) → is_Some (users s !! k).
Proof.
  intros Hr. destruct r as [[u |] | e | [[A B] |] | [X |] | id e | id d];
    cbn [handle]; try done.
  - now destruct (Hr u).
  - unfold getAllUsersHandler. destruct (size (users s) =? 0)%nat; [done |].
    now destruct e.
  - apply (Link_keeps_users s A B k).
  - apply (DeleteUser_keys s X k).
  - unfold getUserFriendsHandler. destruct (users s !! id); [| done].
    now destruct e.
  - apply updateUserAge_keys.
Qed.

Lemma counted_handle (r : Request) (s : Store) :
  counted s →
  (∀ u, r = ReqCreate (Some u) → (nextUserID s < GoInt.maxInt)%Z) →
  counted (handle r s).1.
Proof.
  intros (Hkeys & Hone & Hrange) Hcreate.
  destruct (creation_cases r) as [[u ->] | Hr].
  - specialize (Hcreate u eq_refl).
    change (handle (ReqCreate (Some u)) s) with (CreateUser u s).
    assert (Hnext : GoInt.wrap (nextUserID s + 1) = (nextUserID s + 1)%Z).
    { apply wrap_inRange, inRange_unfold.
      change GoInt.maxInt with 9223372036854775807%Z in Hcreate. lia. }
    rewrite CreateUser_eq. unfold counted. cbn [fst users nextUserID].
    rewrite Hnext. split; [| split].
    + intros k Hk. cbn [users nextUserID] in *. rewrite lookup_insert in Hk.
      case_decide as Hid.
      * exists (nextUserID s). split; [congruence | lia].
      * destruct (Hkeys k Hk) as (z & -> & Hz). exists z. split; [done | lia].
    + lia.
    + rewrite <- Hnext. apply inRange_wrap.
  - destruct (handle_no_creation r s Hr) as [_ Hctr].
    unfold counted. rewrite Hctr. split; [| now split].
    intros k Hk. unfold keysBelowCounter in Hkeys. rewrite Hctr.
    apply Hkeys. now apply (handle_keys r s k Hr).
Qed.

Lemma serve_counted (rs : list Request) (s : Store) :
  counted s →
  (nextUserID s + Z.of_nat (creations rs) ≤ GoInt.maxInt)%Z →
  counted (serve rs s).1 ∧
  nextUserID (serve rs s).1 = (nextUserID s + Z.of_nat (creations rs))%Z.
Proof.
  revert s. induction rs as [| r rs IH]; intros s Hs Hroom.
  { split; [exact Hs |]. simpl. lia. }
  rewrite serve_cons. cbn [fst].
  destruct (creation_cases r) as [[u ->] | Hr].
  - cbn [creations] in Hroom.
    assert (Hstep : counted (handle (ReqCreate (Some u)) s).1).
    { apply counted_handle; [exact Hs |]. intros _ _. lia. }
    assert (Hctr : nextUserID (handle (ReqCreate (Some u)) s).1
                   = (nextUserID s + 1)%Z).
    { change (handle (ReqCreate (Some u)) s) with (CreateUser u s).
      rewrite CreateUser_eq. cbn [fst nextUserID].
      destruct Hs as (_ & Hone & _).
      apply wrap_inRange, inRange_unfold.
      change GoInt.maxInt with 9223372036854775807%Z in Hroom. lia. }
    destruct (IH _ Hstep) as [Hc Hn]; [rewrite Hctr; lia |].
    split; [exact Hc |]. rewrite Hn, Hctr. cbn [creations]. lia.
  - rewrite creations_cons_other in Hroom |- * by assumption.
    assert (Hstep : counted (handle r s).1).
    { apply counted_handle; [exact Hs |]. intros u ->. now destruct (Hr u). }
    destruct (handle_no_creation r s Hr) as [_ Hctr].
    destruct (IH _ Hstep) as [Hc Hn]; [now rewrite Hctr |].
    split; [exact Hc |]. now rewrite Hn, Hctr.
Qed.

(** X9: after any requests with fewer than 2^63 - 1 successful creations
    the counter is 1 plus their number, whatever was deleted, and its
    encoding is not a key of the map: the next CreateUser adds a record and
    overwrites none. *)
Theorem X9_create_never_overwrites (rs : list Request) (newUser : User) :
  (Z.of_nat (creations rs) < GoInt.maxInt)%Z →
  let s := (serve rs initialStore).1 in
  nextUserID s = (1 + Z.of_nat (creations rs))%Z ∧
  users s !! Itoa (nextUserID s) = None ∧
  (∀ k v, users s !! k = Some v →
          users (CreateUser newUser s).1 !! k = Some v) ∧
  size (users (CreateUser newUser s).1) = S (size (users s)).
Proof.
  intros Hroom s.
  destruct (serve_counted rs initialStore counted_initialStore) as [Hc Hn].
  { change (nextUserID initialStore) with 1%Z. lia. }
  fold s in Hc, Hn. change (nextUserID initialStore) with 1%Z in Hn.
  assert (Hfresh : users s !! Itoa (nextUserID s) = None).
  { apply keysBelowCounter_fresh, Hc. }
  split; [exact Hn |]. split; [exact Hfresh |]. split.
  - intros k v Hk. rewrite CreateUser_eq. cbn [fst users].
    rewrite lookup_insert_ne; [exact Hk |]. intros <-. congruence.
  - rewrite CreateUser_eq. cbn [fst users].
    now apply map_size_insert_None.
Qed.

Lemma X9_create_never_overwrites_witness :
  let s := (serve createDeleteCreate initialStore).1 in
  nextUserID s = (1 + Z.of_nat (creations createDeleteCreate))%Z ∧
  users s !! Itoa (nextUserID s) = None ∧
  (∀ k v, users s !! k = Some v →
          users (CreateUser bob s).1 !! k = Some v) ∧
  size (users (CreateUser bob s).1) = S (size (users s)).
Proof.
  apply (X9_create_never_overwrites createDeleteCreate bob).
  vm_compute. reflexivity.
Defined.

(** ** The list returned by GetFriends *)

Lemma resolvedFriends_app (m : gmap string User) (fs gs : list string) :
  resolvedFriends m (fs ++ gs) = resolvedFriends m fs ++ resolvedFriends m gs.
Proof. unfold resolvedFriends. apply omap_app. Qed.

Lemma resolvedFriends_cons (m : gmap string User) (F : string)
  (fs : list string) :
  resolvedFriends m (F :: fs)
  = match m !! F with
    | Some f => f :: resolvedFriends m fs
    | None => resolvedFriends m fs
    end.
Proof. reflexivity. Qed.

(** X10: the loop of GetFriends returns one record per entry of the friend
    list that is a stored ID, repeated entries included, and nothing else;
    when every entry is stored, the i-th record is the record of the i-th
    entry.  The result for a list in two parts is the two results in a
    row. *)
Theorem X10_friends_details_follow_list
  (m : gmap string User) (fs gs : list string) :
  length (friendsDetails m fs)
    = length (filter (λ id, is_Some (m !! id)) fs) ∧
  (∀ f, f ∈ friendsDetails m fs ↔ ∃ id, id ∈ fs ∧ m !! id = Some f) ∧
  ((∀ id, id ∈ fs → is_Some (m !! id)) →
     Some <$> friendsDetails m fs = (λ id, m !! id) <$> fs) ∧
  friendsDetails m (fs ++ gs) = friendsDetails m fs ++ friendsDetails m gs.
Proof.
  rewrite !friendsDetails_resolved. split; [| split; [| split]].
  - induction fs as [| F fs IH]; [reflexivity |].
    rewrite resolvedFriends_cons.
    destruct (m !! F) as [f |] eqn:HF.
    + rewrite filter_cons_True by (rewrite HF; eauto). simpl. now rewrite IH.
    + rewrite filter_cons_False by (rewrite HF; intros [? [=]]). exact IH.
  - intros f. unfold resolvedFriends. rewrite list_elem_of_omap. reflexivity.
  - induction fs as [| F fs IH]; intros Hall; [reflexivity |].
    rewrite resolvedFriends_cons.
    destruct (Hall F (list_elem_of_here _ _)) as [f HF]. rewrite HF.
    cbn [fmap list_fmap]. rewrite HF. f_equal.
    apply IH. intros id Hid. apply Hall. now apply list_elem_of_further.
  - apply resolvedFriends_app.
Qed.

(** ** A created user is visible at once *)

(** X11: right after a CreateUser call, ListUsers (when the response can be
    written) answers 200 with a map that holds the new record under the new
    ID, never 404, and GetFriends of the new ID answers 200 with the records
    of the listed IDs that are stored by then; a user that lists its own new
    ID gets its own record back. *)
Theorem X11_created_user_is_visible (newUser : User) (s : Store) :
  let id := Itoa (nextUserID s) in
  let s' := (CreateUser newUser s).1 in
  (getAllUsersHandler None s').2
    = mkResponse StatusOK (UsersJSON (<[id := newUser]> (users s))) ∧
  (getUserFriendsHandler id None s').2
    = mkResponse StatusOK
        (FriendsJSON (resolvedFriends (<[id := newUser]> (users s))
                        (Friends newUser))) ∧
  (Friends newUser = [id] →
     (getUserFriendsHandler id None s').2
     = mkResponse StatusOK (FriendsJSON [newUser])).
Proof.
  intros id s'. unfold s'. rewrite CreateUser_eq. cbn [fst]. fold id.
  assert (Hget : (getUserFriendsHandler id None
                    (mkStore (<[id := newUser]> (users s))
                             (GoInt.wrap (nextUserID s + 1)))).2
                 = mkResponse StatusOK
                     (FriendsJSON (resolvedFriends (<[id := newUser]> (users s))
                                     (Friends newUser)))).
  { unfold getUserFriendsHandler. cbn [users].
    rewrite lookup_insert_eq. cbn [snd]. now rewrite friendsDetails_resolved. }
  split; [| split].
  - unfold getAllUsersHandler. cbn [users].
    destruct (Nat.eqb_spec (size (<[id := newUser]> (users s))) 0) as [Hz | Hnz];
      [| reflexivity].
    apply map_size_empty_iff in Hz. now apply insert_non_empty in Hz.
  - exact Hget.
  - intros Hself. rewrite Hget, Hself. unfold resolvedFriends. simpl.
    now rewrite lookup_insert_eq.
Qed.

(** ** The order of requests *)

Lemma store_eq (s1 s2 : Store) :
  users s1 = users s2 → nextUserID s1 = nextUserID s2 → s1 = s2.
Proof. destruct s1, s2. simpl. now intros -> ->. Qed.

Lemma Link_counter (s : Store) (A B : string) :
  nextUserID (Link A B s).1 = nextUserID s.
Proof.
  apply (handle_no_creation (ReqMakeFriends (Some (mkFriendship A B))) s).
  discriminate.
Qed.

Lemma DeleteUser_counter (s : Store) (X : string) :
  nextUserID (DeleteUser X s).1 = nextUserID s.
Proof.
  apply (handle_no_creation (ReqDeleteUser (Some X)) s). discriminate.
Qed.

Lemma Link_lookup_total (s : Store) (A B k : string) :
  users (Link A B s).1 !! k
  = match users s !! A, users s !! B with
    | Some ua, Some ub =>
        if decide (k = B) then Some (setFriends ub (Friends ub ++ [A]))
        else if decide (k = A) then Some (setFriends ua (Friends ua ++ [B]))
        else users s !! k
    | _, _ => users s !! k
    end.
Proof.
  destruct (users s !! A) as [ua |] eqn:Ha, (users s !! B) as [ub |] eqn:Hb.
  - apply (Link_lookup s A B ua ub k Ha Hb).
  - now rewrite Link_missing by auto.
  - now rewrite Link_missing by auto.
  - now rewrite Link_missing by auto.
Qed.

Lemma Link_lookup_other (s : Store) (A B k : string) :
  k ≠ A → k ≠ B → users (Link A B s).1 !! k = users s !! k.
Proof.
  intros HA HB. rewrite Link_lookup_total.
  destruct (users s !! A), (users s !! B); try reflexivity.
  now rewrite !decide_False.
Qed.

(** X16: Link(A,B) and Link(B,A) leave the same store; only the order of
    the two names in the confirmation differs. *)
Theorem X16_link_arguments_swap (s : Store) (A B : string) :
  (Link A B s).1 = (Link B A s).1.
Proof.
  destruct (decide (A = B)) as [-> | Hne]; [reflexivity |].
  apply store_eq; [| now rewrite !Link_counter].
  apply map_eq. intros k. rewrite !Link_lookup_total.
  destruct (users s !! A) as [ua |], (users s !! B) as [ub |]; try reflexivity.
  repeat case_decide; subst; congruence.
Qed.

(** X17: two Link calls on pairs of IDs that share no ID can be served in
    either order: the store is the same. *)
Theorem X17_links_on_disjoint_pairs_commute (s : Store) (A B C D : string) :
  C ≠ A → C ≠ B → D ≠ A → D ≠ B →
  (Link C D (Link A B s).1).1 = (Link A B (Link C D s).1).1.
Proof.
  intros HCA HCB HDA HDB.
  apply store_eq; [| now rewrite !Link_counter].
  apply map_eq. intros k.
  rewrite (Link_lookup_total (Link A B s).1 C D k).
  rewrite (Link_lookup_total (Link C D s).1 A B k).
  rewrite !(Link_lookup_other s A B) by assumption.
  rewrite !(Link_lookup_other s C D) by congruence.
  rewrite !Link_lookup_total.
  destruct (users s !! A) as [ua |], (users s !! B) as [ub |],
    (users s !! C) as [uc |], (users s !! D) as [ud |];
    repeat case_decide; subst; congruence.
Qed.

Lemma X17_links_on_disjoint_pairs_commute_witness :
  (Link "3" "3" (Link "1" "2" repeatedEntries).1).1
  = (Link "1" "2" (Link "3" "3" repeatedEntries).1).1.
Proof.
  apply (X17_links_on_disjoint_pairs_commute repeatedEntries "1" "2" "3" "3");
    discriminate.
Defined.

Lemma removeFirst_comm (X Y : string) (l : list string) :
  removeFirst X (removeFirst Y l) = removeFirst Y (removeFirst X l).
Proof.
  destruct (decide (X = Y)) as [-> | Hne]; [reflexivity |].
  induction l as [| z l IH]; [reflexivity |]. cbn [removeFirst].
  destruct (decide (z = Y)) as [HzY | HzY], (decide (z = X)) as [HzX | HzX];
    cbn [removeFirst].
  - congruence.
  - now rewrite decide_True.
  - now rewrite decide_True.
  - now rewrite !decide_False, IH by assumption.
Qed.

Lemma iter_removeFirst_comm (X Y : string) (a b : nat) (l : list string) :
  Nat.iter a (removeFirst Y) (Nat.iter b (removeFirst X) l)
  = Nat.iter b (removeFirst X) (Nat.iter a (removeFirst Y) l).
Proof.
  induction a as [| a IHa]; simpl; [reflexivity |]. rewrite IHa. clear IHa.
  induction b as [| b IHb]; simpl; [reflexivity |].
  now rewrite <- IHb, removeFirst_comm.
Qed.

Lemma DeleteUser_lookup_total (s : Store) (X k : string) :
  users (DeleteUser X s).1 !! k
  = match users s !! X with
    | Some u =>
        if decide (k = X) then None
        else scanned X (occ k (Friends u)) <$> users s !! k
    | None => users s !! k
    end.
Proof.
  destruct (users s !! X) as [u |] eqn:Hx.
  - apply (DeleteUser_lookup s X u k Hx).
  - now rewrite DeleteUser_missing.
Qed.

(** X18: two DeleteUser calls can be served in either order: the store is
    the same, also when one of the users lists the other or appears several
    times in a friend list. *)
Theorem X18_deletions_commute (s : Store) (X Y : string) :
  (DeleteUser Y (DeleteUser X s).1).1 = (DeleteUser X (DeleteUser Y s).1).1.
Proof.
  destruct (decide (X = Y)) as [-> | Hne]; [reflexivity |].
  apply store_eq; [| now rewrite !DeleteUser_counter].
  apply map_eq. intros k.
  rewrite (DeleteUser_lookup_total (DeleteUser X s).1 Y k).
  rewrite (DeleteUser_lookup_total (DeleteUser Y s).1 X k).
  rewrite !(DeleteUser_lookup_total s X), !(DeleteUser_lookup_total s Y).
  destruct (users s !! X) as [ux |] eqn:Hx, (users s !! Y) as [uy |] eqn:Hy;
    rewrite ?(decide_False (P := X = Y)), ?(decide_False (P := Y = X))
      by congruence;
    simpl; try reflexivity.
  destruct (decide (k = Y)) as [HkY | HkY], (decide (k = X)) as [HkX | HkX];
    try reflexivity; try congruence.
  destruct (users s !! k) as [f |]; simpl; [| reflexivity].
  rewrite !occ_iter_removeFirst_other by congruence.
  unfold scanned, setFriends. simpl. do 2 f_equal.
  apply iter_removeFirst_comm.
Qed.

(** ** Status codes of the handlers *)

(** X14: a response written by one of the six handlers carries one of the
    statuses 200, 201, 400, 404 and 500.  Among the handlers, 201 is
    written exactly by [createUserHandler] on a body that decoded, 404
    exactly by [getAllUsersHandler] on an empty map, and 500 only by the
    two GET handlers when the response could not be written.  The answers
    the router library gives by itself, where no handler runs, are not
    among these. *)
Theorem X14_handler_status_codes (r : Request) (s : Store) :
  status (handle r s).2
    ∈ [StatusOK; StatusCreated; StatusBadRequest; StatusNotFound;
       StatusInternalServerError] ∧
  (status (handle r s).2 = StatusCreated ↔ ∃ u, r = ReqCreate (Some u)) ∧
  (status (handle r s).2 = StatusNotFound
   ↔ ∃ e, r = ReqUsers e ∧ users s = ∅) ∧
  (status (handle r s).2 = StatusInternalServerError →
     (∃ msg, r = ReqUsers (Some msg)) ∨ (∃ id msg, r = ReqFriends id (Some msg))).
Proof.
  assert (Hin : ∀ z : Z,
            z = StatusOK ∨ z = StatusCreated ∨ z = StatusBadRequest ∨
            z = StatusNotFound ∨ z = StatusInternalServerError →
            z ∈ [StatusOK; StatusCreated; StatusBadRequest; StatusNotFound;
                 StatusInternalServerError]).
  { intros z Hz. rewrite !elem_of_cons. tauto. }
  unfold StatusOK, StatusCreated, StatusBadRequest, StatusNotFound,
    StatusInternalServerError in *.
  destruct r as [[u |] | e | [fr |] | [X |] | id e | id [age |]]; cbn [handle].
  - simpl. repeat split; eauto 6; try discriminate; intros (? & [=] & _).
  - simpl. repeat split; auto 6; try discriminate;
      try (intros [? [=]]); intros (? & [=] & _).
  - unfold getAllUsersHandler.
    destruct (Nat.eqb_spec (size (users s)) 0) as [Hz | Hnz].
    + apply map_size_empty_iff in Hz. simpl.
      repeat split; eauto 6; try discriminate; intros [? [=]].
    + rewrite map_size_empty_iff in Hnz.
      destruct e as [msg |]; simpl;
        repeat split; eauto 6; try discriminate;
        try (intros [? [=]]); intros (? & _ & ?); contradiction.
  - unfold makeFriendsHandler.
    destruct (users s !! SourceID fr); [destruct (users s !! TargetID fr) |];
      simpl; repeat split; auto 6; try discriminate;
      try (intros [? [=]]); intros (? & [=] & _).
  - simpl. repeat split; auto 6; try discriminate;
      try (intros [? [=]]); intros (? & [=] & _).
  - unfold deleteUserHandler. destruct (users s !! X);
      simpl; repeat split; auto 6; try discriminate;
      try (intros [? [=]]); intros (? & [=] & _).
  - simpl. repeat split; auto 6; try discriminate;
      try (intros [? [=]]); intros (? & [=] & _).
  - unfold getUserFriendsHandler. destruct (users s !! id); [destruct e |];
      simpl; repeat split; eauto 6; try discriminate;
      try (intros [? [=]]); intros (? & [=] & _).
  - unfold updateUserAgeHandler. destruct (users s !! id);
      simpl; repeat split; auto 6; try discriminate;
      try (intros [? [=]]); intros (? & [=] & _).
  - simpl. repeat split; auto 6; try discriminate;
      try (intros [? [=]]); intros (? & [=] & _).
Qed.
